(** * Digital wallet back end ([Hackada/backend.py], class [WalletDatabase])

    A shallow embedding of the in-memory wallet database and of the two
    wallet-screen handlers that call it, with the properties of the ledger
    specification stated and settled against it.

    Modelling conventions.
    - [self.users] is a Python dict; it keeps insertion order and the loops
      of the source iterate over [self.users.values()], so it is an
      association list of (key, user) pairs in insertion order.  A user object
      mutated in place is designated by its position in that list.
    - [self.transactions] is a Python list, appended at the end.
    - Balances are [decimal.Decimal] values.  Arithmetic is the one of the
      default context: 28 significant digits, ROUND_HALF_EVEN,
      Emax = 999999, Emin = -999999, Overflow trapped (raised).
    - [uuid.uuid4()] and [datetime.now()] are inputs of the operations.
    - [hashlib.sha256(..).hexdigest()] is kept symbolic.
    - [amount] is a Python number: an [int], a finite [float] or a finite
      [Decimal].  The balance updates use [Decimal(str(amount))], the log
      stores [float(amount)].  A float is designated by a decimal it is the
      nearest float of; of its bits only the sign is used.  [str(amount)]
      raises [ValueError] for an [int] too long, before anything is written;
      [float(amount)] raises [OverflowError] for an [int] too large, after
      the balance has been written.  NaN and infinities are outside the
      model. *)

From Stdlib Require Import ZArith QArith Qpower Lia Sorted Permutation.
From stdpp Require Import base list strings.

(** ** [decimal.Decimal] under the default context *)

Local Open Scope Z_scope.

Module Dec.

(** A finite decimal: [coefficient * 10 ^ exponent].  The sign is the sign
    of the coefficient; the sign of a zero is not represented (the source
    only compares and adds balances, and -0 = 0 for both). *)
Record Decimal : Type := mk { coefficient : Z; exponent : Z }.

Definition prec : Z := 28.

Definition Emax : Z := 999999.

Definition Emin : Z := -999999.

Definition Etiny : Z := Emin - prec + 1.

Definition Etop : Z := Emax - prec + 1.

(** [len(self._int)]: number of decimal digits of a positive integer. *)
Fixpoint ndigits_fuel (fuel : nat) (n : Z) : Z :=
  match fuel with
  | O => 1
  | S fuel' => if n <? 10 then 1 else 1 + ndigits_fuel fuel' (n / 10)
  end.

Definition ndigits (n : Z) : Z := ndigits_fuel (Z.to_nat (Z.log2 n)) n.

(** ROUND_HALF_EVEN of the non-negative [n / 10^k]. *)
Definition round_half_even (n k : Z) : Z :=
  let q := n / 10 ^ k in
  let r := n mod 10 ^ k in
  match 2 * r ?= 10 ^ k with
  | Lt => q
  | Gt => q + 1
  | Eq => if Z.even q then q else q + 1
  end.

(** [Decimal._fix]: round to the context precision, clamp subnormals to
    [Etiny]; [None] stands for the trapped [Overflow]. *)
Definition fix_ (c e : Z) : option Decimal :=
  if c =? 0 then Some (mk 0 (Z.min (Z.max e Etiny) Emax))
  else
    let exp_min0 := ndigits (Z.abs c) + e - prec in
    if exp_min0 >? Etop then None
    else
      let exp_min := Z.max exp_min0 Etiny in
      if e <? exp_min then
        let coeff := round_half_even (Z.abs c) (exp_min - e) in
        let '(coeff, exp_min) :=
          if ndigits coeff <=? prec then (coeff, exp_min)
          else (coeff / 10, exp_min + 1) in
        if exp_min >? Etop then None
        else Some (mk (Z.sgn c * coeff) exp_min)
      else Some (mk c e).

(** Both operands brought to the smaller exponent. *)
Definition aligned (x y : Decimal) : Z * Z * Z :=
  let e := Z.min (exponent x) (exponent y) in
  (coefficient x * 10 ^ (exponent x - e),
   coefficient y * 10 ^ (exponent y - e), e).

(** [x + y], [x - y] (which is [x + (-y)]) and [x < y]. *)
Definition add (x y : Decimal) : option Decimal :=
  let '(cx, cy, e) := aligned x y in fix_ (cx + cy) e.

Definition neg (y : Decimal) : Decimal := mk (- coefficient y) (exponent y).

Definition sub (x y : Decimal) : option Decimal := add x (neg y).

Definition ltb (x y : Decimal) : bool :=
  let '(cx, cy, _) := aligned x y in cx <? cy.

Definition leb (x y : Decimal) : bool :=
  let '(cx, cy, _) := aligned x y in cx <=? cy.

(** The rational number a decimal denotes. *)
Definition value (d : Decimal) : Q :=
  (inject_Z (coefficient d) * (10 # 1) ^ exponent d)%Q.

End Dec.

Abbreviation Decimal := Dec.Decimal.

(** [Decimal('0.00')], [Decimal('1000.00')], [Decimal('500.00')]. *)
Definition Decimal_0_00 : Decimal := Dec.mk 0 (-2).

Definition Decimal_1000_00 : Decimal := Dec.mk 100000 (-2).

Definition Decimal_500_00 : Decimal := Dec.mk 50000 (-2).

(** ** Data model *)

(** [hashlib.sha256(password.encode()).hexdigest()], kept symbolic. *)
Inductive Digest : Type := sha256_hexdigest (password : string).

(** A binary float, designated by a decimal of which it is the nearest
    float: [PyFloat d] is [float(d)], what [float] makes of the text of [d].
    Two decimals can designate the same float, so equal terms are equal
    floats, and nothing more is read from a term than the float has. *)
Inductive float : Type := PyFloat (d : Decimal).

(** The decimal that designates [f].  For a float [x], [Decimal(str(x))] is
    the shortest decimal that reads back as [x]: when [f] is [float(x)] for
    an amount [x] that is itself a float, this is [Decimal(str(f))]. *)
Definition float_arg (f : float) : Decimal := let 'PyFloat d := f in d.

(** The [amount] passed to [add_money] and [send_money]: an [int], a finite
    [float], designated by the decimal [Decimal(str(x))] of its repr, or a
    finite [decimal.Decimal]. *)
Inductive Amount : Type :=
| an_int (n : Z)
| a_float (repr : Decimal)
| a_Decimal (d : Decimal).

(** [str(amount)] raises [ValueError] for an [int] of more than 4300 digits,
    the limit that CPython sets by default on the conversion of an [int] to
    text. *)
Definition int_max_str_digits : Z := 4300.

Definition str_raises (amount : Amount) : bool :=
  match amount with
  | an_int n => int_max_str_digits <? Dec.ndigits (Z.abs n)
  | _ => false
  end.

(** [Decimal(str(amount))], where [str(amount)] does not raise: the digits
    of an [int], the repr of a [float], a [Decimal] itself. *)
Definition Decimal_str (amount : Amount) : Decimal :=
  match amount with
  | an_int n => Dec.mk n 0
  | a_float repr => repr
  | a_Decimal d => d
  end.

(** [float(amount)].  An [int] is rounded to the nearest float, and
    [OverflowError], here [None], is raised when that is beyond the largest
    float, from 2^1024 - 2^970 on.  A float is returned as it is.  A
    [Decimal] is read from its text, which gives [inf] instead of raising. *)
Definition to_float (amount : Amount) : option float :=
  match amount with
  | an_int n =>
      if Z.abs n <? 2 ^ 1024 - 2 ^ 970 then Some (PyFloat (Dec.mk n 0))
      else None
  | a_float repr => Some (PyFloat repr)
  | a_Decimal d => Some (PyFloat d)
  end.

(** A value of [self.users]. *)
Record User : Type := mkUser {
  u_id : string;
  u_email : string;
  u_password_hash : Digest;
  u_full_name : string;
  u_balance : Decimal
}.

(** The ['type'] of a transaction: ['credit'], ['transfer_out'],
    ['transfer_in']. *)
Inductive TxType : Type := credit | transfer_out | transfer_in.

(** An element of [self.transactions].  The keys ['recipient_email'] and
    ['sender_email'] exist only in transfer entries. *)
Record Transaction : Type := mkTransaction {
  tx_id : string;
  tx_user_id : string;
  tx_type : TxType;
  tx_amount : float;
  tx_description : string;
  tx_recipient_email : option string;
  tx_sender_email : option string;
  tx_timestamp : string;
  tx_balance_after : float
}.

Record WalletDatabase : Type := mkDB {
  users : list (string * User);
  transactions : list Transaction
}.

(** How a call ends: it returns [result], or an exception propagates; in
    both cases [db] is the database it leaves behind. *)
Inductive outcome (A : Type) : Type :=
| Returns (db : WalletDatabase) (result : A)
| Raises (db : WalletDatabase) (exc : string).

Arguments Returns {A} db result.
Arguments Raises {A} db exc.

Definition db_of {A} (o : outcome A) : WalletDatabase :=
  match o with Returns db _ | Raises db _ => db end.

(** [self.users.values()], in insertion order. *)
Definition values (db : WalletDatabase) : list User := (users db).*2.

(** ** [WalletDatabase] *)

Definition _hash_password (password : string) : Digest :=
  sha256_hexdigest password.

(** [WalletDatabase.__init__] *)
Definition __init__ : WalletDatabase :=
  {| users :=
       [ ("alice@example.com",
          {| u_id := "1"; u_email := "alice@example.com";
             u_password_hash := _hash_password "password123";
             u_full_name := "Alice Smith"; u_balance := Decimal_1000_00 |});
         ("bob@example.com",
          {| u_id := "2"; u_email := "bob@example.com";
             u_password_hash := _hash_password "password123";
             u_full_name := "Bob Johnson"; u_balance := Decimal_500_00 |}) ];
     transactions := [] |}.

(** [email in self.users] *)
Definition has_key (email : string) (us : list (string * User)) : bool :=
  existsb (String.eqb email) us.*1.

(** [register_user]; [uuid] is the value of [str(uuid.uuid4())]. *)
Definition register_user (db : WalletDatabase) (uuid : string)
    (email password full_name : string)
    : WalletDatabase * (option User * option string) :=
  if has_key email (users db) then (db, (None, Some "Email already registered"))
  else
    let user := {| u_id := uuid; u_email := email;
                   u_password_hash := _hash_password password;
                   u_full_name := full_name; u_balance := Decimal_0_00 |} in
    ({| users := users db ++ [(email, user)];
        transactions := transactions db |}, (Some user, None)).

(** [login_user] *)
Definition login_user (db : WalletDatabase) (email password : string)
    : option User * option string :=
  match list_find (λ kv : string * User, kv.1 = email) (users db) with
  | Some (_, (_, user)) =>
      match u_password_hash user, _hash_password password with
      | sha256_hexdigest p, sha256_hexdigest q =>
          if String.eqb p q then (Some user, None)
          else (None, Some "Invalid email or password")
      end
  | None => (None, Some "Invalid email or password")
  end.

(** First user whose ['id'] is [user_id], with its position: the loop
    [for user in self.users.values(): if user['id'] == user_id: ...]
    of [get_balance] and [add_money], left at the first match. *)
Fixpoint first_with_id (user_id : string) (vals : list User) (i : nat)
    : option (nat * User) :=
  match vals with
  | [] => None
  | user :: rest =>
      if String.eqb (u_id user) user_id then Some (i, user)
      else first_with_id user_id rest (S i)
  end.

(** [get_balance] *)
Definition get_balance (db : WalletDatabase) (user_id : string) : Decimal :=
  match first_with_id user_id (values db) 0 with
  | Some (_, user) => u_balance user
  | None => Decimal_0_00
  end.

(** The user object at position [i], read and written in place. *)
Definition read_balance (us : list (string * User)) (i : nat) : Decimal :=
  from_option (λ kv, u_balance kv.2) Decimal_0_00 (us !! i).

Definition set_balance (b : Decimal) (kv : string * User) : string * User :=
  (kv.1, {| u_id := u_id kv.2; u_email := u_email kv.2;
            u_password_hash := u_password_hash kv.2;
            u_full_name := u_full_name kv.2; u_balance := b |}).

Definition write_balance (us : list (string * User)) (i : nat) (b : Decimal)
    : list (string * User) :=
  alter (set_balance b) i us.

(** [add_money]; [uuid] and [now] are the values of [str(uuid.uuid4())] and
    [datetime.now().isoformat()].  [str(amount)] is evaluated first (line
    78), and the balance is written before the entry is built:
    [float(amount)] (line 83) can then still raise. *)
Definition add_money (db : WalletDatabase) (uuid now : string)
    (user_id : string) (amount : Amount)
    : outcome (option Decimal * option Transaction * option string) :=
  match first_with_id user_id (values db) 0 with
  | Some (i, _) =>
      if str_raises amount then Raises db "ValueError"
      else
        match Dec.add (read_balance (users db) i) (Decimal_str amount) with
        | None => Raises db "decimal.Overflow"
        | Some balance =>
            let users1 := write_balance (users db) i balance in
            match to_float amount with
            | None =>
                Raises {| users := users1; transactions := transactions db |}
                       "OverflowError"
            | Some float_amount =>
                let transaction :=
                  {| tx_id := uuid; tx_user_id := user_id; tx_type := credit;
                     tx_amount := float_amount;
                     tx_description := "Added money to wallet";
                     tx_recipient_email := None; tx_sender_email := None;
                     tx_timestamp := now;
                     tx_balance_after := PyFloat balance |} in
                Returns {| users := users1;
                           transactions := transactions db ++ [transaction] |}
                        (Some balance, Some transaction, None)
            end
        end
  | None => Returns db (None, None, Some "User not found")
  end.

(** The lookup loop of [send_money]: it runs to the end, so each of
    [sender] and [recipient] is the last match. *)
Fixpoint send_money_scan (sender_id recipient_email : string)
    (vals : list User) (i : nat) (sender recipient : option (nat * User))
    : option (nat * User) * option (nat * User) :=
  match vals with
  | [] => (sender, recipient)
  | user :: rest =>
      let sender :=
        if String.eqb (u_id user) sender_id then Some (i, user) else sender in
      let recipient :=
        if String.eqb (u_email user) recipient_email then Some (i, user)
        else recipient in
      send_money_scan sender_id recipient_email rest (S i) sender recipient
  end.

(** [description or default] *)
Definition or_default (description : option string) (default : string)
    : string :=
  match description with
  | Some s => if String.eqb s "" then default else s
  | None => default
  end.

(** [send_money]; [uuid_s], [now_s], [uuid_r], [now_r] are the values of the
    two [uuid.uuid4()] and [datetime.now()] calls, in evaluation order.
    [str(amount)] is first evaluated for the balance check (line 108).  Both
    balances are written (lines 112-113) before [sender_tx] is built, where
    [float(amount)] (line 120) can still raise. *)
Definition send_money (db : WalletDatabase) (uuid_s now_s uuid_r now_r : string)
    (sender_id recipient_email : string) (amount : Amount)
    (description : option string)
    : outcome (option Decimal * option Transaction * option string) :=
  match send_money_scan sender_id recipient_email (values db) 0 None None with
  | (None, _) => Returns db (None, None, Some "Sender not found")
  | (Some _, None) => Returns db (None, None, Some "Recipient not found")
  | (Some (i, sender), Some (j, recipient)) =>
      if String.eqb (u_email sender) recipient_email then
        Returns db (None, None, Some "Cannot send money to yourself")
      else if str_raises amount then Raises db "ValueError"
      else if Dec.ltb (read_balance (users db) i) (Decimal_str amount) then
        Returns db (None, None, Some "Insufficient balance")
      else
        match Dec.sub (read_balance (users db) i) (Decimal_str amount) with
        | None => Raises db "decimal.Overflow"
        | Some sender_balance =>
            let users1 := write_balance (users db) i sender_balance in
            match Dec.add (read_balance users1 j) (Decimal_str amount) with
            | None =>
                Raises {| users := users1; transactions := transactions db |}
                       "decimal.Overflow"
            | Some recipient_balance =>
                let users2 := write_balance users1 j recipient_balance in
                match to_float amount with
                | None =>
                    Raises {| users := users2;
                              transactions := transactions db |}
                           "OverflowError"
                | Some float_amount =>
                    let sender_tx :=
                      {| tx_id := uuid_s; tx_user_id := sender_id;
                         tx_type := transfer_out; tx_amount := float_amount;
                         tx_description :=
                           or_default description
                             ("Sent to " +:+ recipient_email);
                         tx_recipient_email := Some recipient_email;
                         tx_sender_email := None;
                         tx_timestamp := now_s;
                         tx_balance_after :=
                           PyFloat (read_balance users2 i) |} in
                    let recipient_tx :=
                      {| tx_id := uuid_r; tx_user_id := u_id recipient;
                         tx_type := transfer_in; tx_amount := float_amount;
                         tx_description :=
                           "Received from " +:+ u_email sender;
                         tx_recipient_email := None;
                         tx_sender_email := Some (u_email sender);
                         tx_timestamp := now_r;
                         tx_balance_after :=
                           PyFloat (read_balance users2 j) |} in
                    Returns {| users := users2;
                               transactions :=
                                 transactions db
                                   ++ [sender_tx; recipient_tx] |}
                            (Some (read_balance users2 i), Some sender_tx,
                             None)
                end
            end
        end
  end.

(** [list.sort(key=lambda x: x['timestamp'], reverse=True)]: the sort is
    stable, also with [reverse=True]; keys are strings, compared as Python
    compares [str].  The result is built by insertion from the right, each
    element placed in front of the first one whose key is not larger. *)
Fixpoint insert_by_timestamp (x : Transaction) (l : list Transaction)
    : list Transaction :=
  match l with
  | [] => [x]
  | y :: l' =>
      if String.leb (tx_timestamp y) (tx_timestamp x) then x :: y :: l'
      else y :: insert_by_timestamp x l'
  end.

Definition sort_by_timestamp_reverse (l : list Transaction)
    : list Transaction :=
  foldr insert_by_timestamp [] l.

(** The slice [l[:limit]] for an integer [limit]. *)
Definition slice_to (limit : Z) (l : list Transaction) : list Transaction :=
  if 0 <=? limit then take (Z.to_nat limit) l
  else take (length l - Z.to_nat (- limit)) l.

(** [get_transactions] *)
Definition get_transactions (db : WalletDatabase) (user_id : string)
    (limit : Z) : list Transaction :=
  let user_txs :=
    List.filter (λ tx, String.eqb (tx_user_id tx) user_id) (transactions db) in
  slice_to limit (sort_by_timestamp_reverse user_txs).

(** The default of the [limit] parameter. *)
Definition default_limit : Z := 10.

(** ** The wallet-screen handlers that call the database

    [add_money(e)] and [send_money(e)] inside [show_wallet_screen].  The
    amount field holds a text that [float(amount_field.value)] reads as a
    finite float; [amount] is that float, designated by the decimal
    [Decimal(str(amount))] of its repr.  The other fields are given by their
    text.  The snack bar is what the handlers show, if anything.  On success
    they call [update_balance()], which stores in [current_user['data']],
    the very user object of the store, the balance it has just read from it,
    and [update_transactions()], which only reads. *)

(** [not value], for the text of a field. *)
Definition empty (value : string) : bool := String.eqb value "".

Module UI.

Inductive snack_bar : Type :=
| Error (text : string)        (* red:   ft.Text(error) or ft.Text(str(e)) *)
| Added (amount : float)       (* green: "Added $.. successfully!" *)
| Sent (amount : float).       (* green: "Sent $.. successfully!" *)

(** [amount <= 0] *)
Definition le_0 (amount : Decimal) : bool := Dec.leb amount (Dec.mk 0 0).

Definition add_money (db : WalletDatabase) (uuid now : string)
    (current_user_id : string) (amount : Decimal) : outcome snack_bar :=
  if le_0 amount then Returns db (Error "Amount must be positive")
  else
    match add_money db uuid now current_user_id (a_float amount) with
    | Returns db' (_, _, Some error) => Returns db' (Error error)
    | Returns db' (_, _, None) => Returns db' (Added (PyFloat amount))
    | Raises db' exc => Raises db' exc
    end.

(** With an empty recipient field the handler returns at once (lines
    451-452) and shows nothing: the result is [None]. *)
Definition send_money (db : WalletDatabase)
    (uuid_s now_s uuid_r now_r : string) (current_user_id : string)
    (recipient : string) (amount : Decimal) (description : string)
    : outcome (option snack_bar) :=
  if empty recipient then Returns db None
  else if le_0 amount then Returns db (Some (Error "Amount must be positive"))
  else
    match send_money db uuid_s now_s uuid_r now_r current_user_id recipient
            (a_float amount)
            (Some (or_default (Some description) "Money transfer")) with
    | Returns db' (_, _, Some error) => Returns db' (Some (Error error))
    | Returns db' (_, _, None) => Returns db' (Some (Sent (PyFloat amount)))
    | Raises db' exc => Raises db' exc
    end.

End UI.

(** ** Sequences of operations *)

Inductive Op : Type :=
| RegisterUser (uuid email password full_name : string)
| AddMoney (uuid now user_id : string) (amount : Amount)
| SendMoney (uuid_s now_s uuid_r now_r sender_id recipient_email : string)
    (amount : Amount) (description : option string).

(** The database an operation leaves behind. *)
Definition step (db : WalletDatabase) (op : Op) : WalletDatabase :=
  match op with
  | RegisterUser uuid email password full_name =>
      (register_user db uuid email password full_name).1
  | AddMoney uuid now user_id amount =>
      db_of (add_money db uuid now user_id amount)
  | SendMoney uuid_s now_s uuid_r now_r sender_id recipient_email amount d =>
      db_of (send_money db uuid_s now_s uuid_r now_r sender_id recipient_email
               amount d)
  end.

Definition run (db : WalletDatabase) (ops : list Op) : WalletDatabase :=
  foldl step db ops.

(** ** Quantities and predicates of the properties *)

Local Open Scope Q_scope.

(** Sum of all balances in the store. *)
Definition total (us : list (string * User)) : Q :=
  foldr (λ kv acc, Dec.value (u_balance kv.2) + acc) 0 us.

(** Signed effect of one entry: credits count positive, debits negative.
    The stored float is decoded as [Decimal(str(tx['amount']))], which is
    the decimal that designates it when the amount passed was a float. *)
Definition signed_amount (tx : Transaction) : Q :=
  match tx_type tx with
  | credit | transfer_in => Dec.value (float_arg (tx_amount tx))
  | transfer_out => - Dec.value (float_arg (tx_amount tx))
  end.

(** The sign of a float.  The smallest positive float is 2^-1074, and
    [float] rounds to the nearest float, a tie to the one with an even
    mantissa: [float(d)] is positive for [d] above 2^-1075, negative for [d]
    below -2^-1075, and [0.0] or [-0.0] in between, the two bounds
    included. *)
Definition half_tiny : Q := 1 # 2 ^ 1075.

Definition positive_float (f : float) : Prop :=
  let 'PyFloat d := f in half_tiny < Dec.value d.

Definition negative_float (f : float) : Prop :=
  let 'PyFloat d := f in Dec.value d < - half_tiny.

Definition zero_float (f : float) : Prop :=
  let 'PyFloat d := f in - half_tiny <= Dec.value d <= half_tiny.

(** Replay of the entries of [user_id]; a sum does not depend on the order
    in which the entries are visited. *)
Definition replay (user_id : string) (log : list Transaction) : Q :=
  foldr (λ tx acc,
           if String.eqb (tx_user_id tx) user_id then signed_amount tx + acc
           else acc) 0 log.

Local Close Scope Q_scope.
Local Close Scope Z_scope.

(** Every balance of the store is at least zero. *)
Definition non_negative (db : WalletDatabase) : Prop :=
  Forall (λ kv, (0 <= Dec.coefficient (u_balance kv.2))%Z) (users db).

(** The ids of the accounts, in insertion order. *)
Definition ids (us : list (string * User)) : list string :=
  (λ kv, u_id kv.2) <$> us.

(** At most one account of the store has the id [user_id]. *)
Definition unique_id (user_id : string) (us : list (string * User)) : Prop :=
  forall k k' kv kv',
    us !! k = Some kv -> us !! k' = Some kv' ->
    u_id kv.2 = user_id -> u_id kv'.2 = user_id -> k = k'.

(** Every entry of the log belongs to an account of the store. *)
Definition log_owned (db : WalletDatabase) : Prop :=
  Forall (λ tx, tx_user_id tx ∈ ids (users db)) (transactions db).

(** The two accounts created by [__init__] are in the store. *)
Definition seeded (db : WalletDatabase) : Prop :=
  "1" ∈ ids (users db) /\ "2" ∈ ids (users db).

(** Operations that pass a positive amount, as the handlers do. *)
Definition positive_amount (op : Op) : Prop :=
  match op with
  | RegisterUser _ _ _ _ => True
  | AddMoney _ _ _ amount | SendMoney _ _ _ _ _ _ amount _ =>
      (0 < Dec.coefficient (Decimal_str amount))%Z
  end.

(** Operations that pass a float, as the handlers do. *)
Definition float_amount (op : Op) : Prop :=
  match op with
  | RegisterUser _ _ _ _ => True
  | AddMoney _ _ _ (a_float _) | SendMoney _ _ _ _ _ _ (a_float _) _ => True
  | _ => False
  end.

(** The entries an operation appends: a credit entry for [add_money], a
    transfer_out or a transfer_in entry for [send_money]. *)
Definition kind_of (op : Op) (tx : Transaction) : Prop :=
  match op with
  | RegisterUser _ _ _ _ => False
  | AddMoney _ _ _ _ => tx_type tx = credit
  | SendMoney _ _ _ _ _ _ _ _ =>
      tx_type tx = transfer_out \/ tx_type tx = transfer_in
  end.

(** The amount an operation passes, if it passes one. *)
Definition amount_of (op : Op) : option Amount :=
  match op with
  | RegisterUser _ _ _ _ => None
  | AddMoney _ _ _ amount | SendMoney _ _ _ _ _ _ amount _ => Some amount
  end.

(** What one operation appends to the log: nothing, one credit entry, or a
    transfer_out entry followed by its transfer_in entry. *)
Inductive appended : list Transaction -> Prop :=
| appended_nothing : appended []
| appended_credit tx : tx_type tx = credit -> appended [tx]
| appended_pair sender_tx recipient_tx :
    tx_type sender_tx = transfer_out ->
    tx_type recipient_tx = transfer_in ->
    tx_amount sender_tx = tx_amount recipient_tx ->
    appended [sender_tx; recipient_tx].

(** [a] is not older than [b]: the order of a history, newest first. *)
Definition not_older (a b : Transaction) : Prop :=
  String.leb (tx_timestamp b) (tx_timestamp a) = true.

(** The entries of [user_id], in the order of the log. *)
Definition entries_of (user_id : string) (log : list Transaction)
    : list Transaction :=
  List.filter (λ tx, String.eqb (tx_user_id tx) user_id) log.

(** The entries stamped [t], in the order of the list. *)
Definition stamped (t : string) (l : list Transaction) : list Transaction :=
  List.filter (λ tx, String.eqb (tx_timestamp tx) t) l.

Local Open Scope Q_scope.

(** A balance update is exact when the context did not round it: the new
    balance denotes the sum, or the difference, of the operands. *)
Definition exact_add (x y : Decimal) : Prop :=
  match Dec.add x y with
  | Some r => Dec.value r == Dec.value x + Dec.value y
  | None => False
  end.

Definition exact_sub (x y : Decimal) : Prop :=
  match Dec.sub x y with
  | Some r => Dec.value r == Dec.value x - Dec.value y
  | None => False
  end.

(** The balance updates that [op] performs on [db] are exact. *)
Definition exact_step (db : WalletDatabase) (op : Op) : Prop :=
  match op with
  | RegisterUser _ _ _ _ => True
  | AddMoney _ _ user_id amount =>
      match first_with_id user_id (values db) 0 with
      | Some (_, user) =>
          if str_raises amount then True
          else exact_add (u_balance user) (Decimal_str amount)
      | None => True
      end
  | SendMoney _ _ _ _ sender_id recipient_email amount _ =>
      match send_money_scan sender_id recipient_email (values db) 0 None None
      with
      | (Some (_, sender), Some (_, recipient)) =>
          if String.eqb (u_email sender) recipient_email then True
          else if str_raises amount then True
          else if Dec.ltb (u_balance sender) (Decimal_str amount) then True
          else exact_sub (u_balance sender) (Decimal_str amount) /\
               exact_add (u_balance recipient) (Decimal_str amount)
      | _ => True
      end
  end.

(** All balance updates of a sequence of operations are exact. *)
Fixpoint exact_run (db : WalletDatabase) (ops : list Op) : Prop :=
  match ops with
  | [] => True
  | op :: ops => exact_step db op /\ exact_run (step db op) ops
  end.

(** The amount of a deposit that succeeded, zero for any other call. *)
Definition deposit (db : WalletDatabase) (op : Op) : Q :=
  match op with
  | AddMoney uuid now user_id amount =>
      match add_money db uuid now user_id amount with
      | Returns _ (_, _, None) => Dec.value (Decimal_str amount)
      | _ => 0
      end
  | _ => 0
  end.

(** Sum of the deposits that succeed along a sequence of operations. *)
Fixpoint deposits (db : WalletDatabase) (ops : list Op) : Q :=
  match ops with
  | [] => 0
  | op :: ops => deposit db op + deposits (step db op) ops
  end.

(** The balance an id starts with: what the initial database holds for it,
    1000.00 for "1", 500.00 for "2", and 0.00 for an id registered later. *)
Definition opening (user_id : string) : Q :=
  Dec.value (get_balance __init__ user_id).

(** The balance of every account with the id [user_id] is the opening
    balance of that id plus the replay of its entries. *)
Definition ledger (user_id : string) (db : WalletDatabase) : Prop :=
  forall k kv,
    users db !! k = Some kv -> u_id kv.2 = user_id ->
    Dec.value (u_balance kv.2)
    == opening user_id + replay user_id (transactions db).

Local Close Scope Q_scope.

(** ** The cases of [add_money] and [send_money] *)

(** One accumulator of the lookup loop of [send_money]. *)
Fixpoint last_match (p : User -> bool) (vals : list User) (i : nat)
    (acc : option (nat * User)) : option (nat * User) :=
  match vals with
  | [] => acc
  | user :: rest =>
      last_match p rest (S i) (if p user then Some (i, user) else acc)
  end.

(** [u] at position [i] is the last element of [vals] that satisfies [P]. *)
Definition last_with (P : User -> Prop) (vals : list User) (i : nat)
    (u : User) : Prop :=
  vals !! i = Some u /\ P u /\
  forall m u', i < m -> vals !! m = Some u' -> ~ P u'.

(** [u] at position [i] is the first element of [vals] that satisfies [P]. *)
Definition first_with (P : User -> Prop) (vals : list User) (i : nat)
    (u : User) : Prop :=
  vals !! i = Some u /\ P u /\
  forall m u', m < i -> vals !! m = Some u' -> ~ P u'.

Abbreviation has_id user_id := (λ u : User, u_id u = user_id).

Abbreviation has_email email := (λ u : User, u_email u = email).

(** The entries built by [add_money] and by [send_money]. *)
Definition credit_tx (uuid now user_id : string) (amount : float)
    (balance : Decimal) : Transaction :=
  {| tx_id := uuid; tx_user_id := user_id; tx_type := credit;
     tx_amount := amount;
     tx_description := "Added money to wallet";
     tx_recipient_email := None; tx_sender_email := None;
     tx_timestamp := now; tx_balance_after := PyFloat balance |}.

Definition transfer_out_tx (uuid now sender_id recipient_email : string)
    (description : option string) (amount : float) (balance : Decimal)
    : Transaction :=
  {| tx_id := uuid; tx_user_id := sender_id; tx_type := transfer_out;
     tx_amount := amount;
     tx_description := or_default description ("Sent to " +:+ recipient_email);
     tx_recipient_email := Some recipient_email; tx_sender_email := None;
     tx_timestamp := now; tx_balance_after := PyFloat balance |}.

Definition transfer_in_tx (uuid now recipient_id sender_email : string)
    (amount : float) (balance : Decimal) : Transaction :=
  {| tx_id := uuid; tx_user_id := recipient_id; tx_type := transfer_in;
     tx_amount := amount;
     tx_description := "Received from " +:+ sender_email;
     tx_recipient_email := None; tx_sender_email := Some sender_email;
     tx_timestamp := now; tx_balance_after := PyFloat balance |}.

(** The ways a call of [add_money] can end. *)
Inductive add_money_case (db : WalletDatabase) (uuid now user_id : string)
    (amount : Amount)
    : outcome (option Decimal * option Transaction * option string) -> Prop :=
| add_money_not_found :
    (forall u, u ∈ values db -> u_id u <> user_id) ->
    add_money_case db uuid now user_id amount
      (Returns db (None, None, Some "User not found"))
| add_money_str i u :
    first_with (has_id user_id) (values db) i u ->
    str_raises amount = true ->
    add_money_case db uuid now user_id amount (Raises db "ValueError")
| add_money_overflow i u :
    first_with (has_id user_id) (values db) i u ->
    Dec.add (u_balance u) (Decimal_str amount) = None ->
    str_raises amount = false ->
    add_money_case db uuid now user_id amount (Raises db "decimal.Overflow")
| add_money_float_overflow i u balance :
    first_with (has_id user_id) (values db) i u ->
    Dec.add (u_balance u) (Decimal_str amount) = Some balance ->
    to_float amount = None ->
    str_raises amount = false ->
    add_money_case db uuid now user_id amount
      (Raises {| users := write_balance (users db) i balance;
                 transactions := transactions db |} "OverflowError")
| add_money_done i u balance stored :
    first_with (has_id user_id) (values db) i u ->
    Dec.add (u_balance u) (Decimal_str amount) = Some balance ->
    to_float amount = Some stored ->
    str_raises amount = false ->
    add_money_case db uuid now user_id amount
      (Returns {| users := write_balance (users db) i balance;
                  transactions :=
                    transactions db
                      ++ [credit_tx uuid now user_id stored balance] |}
               (Some balance,
                Some (credit_tx uuid now user_id stored balance), None)).

(** The ways a call of [send_money] can end, in the order of its checks. *)
Inductive send_money_case (db : WalletDatabase)
    (uuid_s now_s uuid_r now_r sender_id recipient_email : string)
    (amount : Amount) (description : option string)
    : outcome (option Decimal * option Transaction * option string) -> Prop :=
| send_money_no_sender :
    (forall u, u ∈ values db -> u_id u <> sender_id) ->
    send_money_case db uuid_s now_s uuid_r now_r sender_id recipient_email
      amount description (Returns db (None, None, Some "Sender not found"))
| send_money_no_recipient i sender :
    last_with (has_id sender_id) (values db) i sender ->
    (forall u, u ∈ values db -> u_email u <> recipient_email) ->
    send_money_case db uuid_s now_s uuid_r now_r sender_id recipient_email
      amount description (Returns db (None, None, Some "Recipient not found"))
| send_money_self i sender j recipient :
    last_with (has_id sender_id) (values db) i sender ->
    last_with (has_email recipient_email) (values db) j recipient ->
    u_email sender = recipient_email ->
    send_money_case db uuid_s now_s uuid_r now_r sender_id recipient_email
      amount description
      (Returns db (None, None, Some "Cannot send money to yourself"))
| send_money_str i sender j recipient :
    last_with (has_id sender_id) (values db) i sender ->
    last_with (has_email recipient_email) (values db) j recipient ->
    u_email sender <> recipient_email ->
    str_raises amount = true ->
    send_money_case db uuid_s now_s uuid_r now_r sender_id recipient_email
      amount description (Raises db "ValueError")
| send_money_insufficient i sender j recipient :
    last_with (has_id sender_id) (values db) i sender ->
    last_with (has_email recipient_email) (values db) j recipient ->
    u_email sender <> recipient_email ->
    Dec.ltb (u_balance sender) (Decimal_str amount) = true ->
    str_raises amount = false ->
    send_money_case db uuid_s now_s uuid_r now_r sender_id recipient_email
      amount description (Returns db (None, None, Some "Insufficient balance"))
| send_money_overflow_sender i sender j recipient :
    last_with (has_id sender_id) (values db) i sender ->
    last_with (has_email recipient_email) (values db) j recipient ->
    u_email sender <> recipient_email ->
    Dec.ltb (u_balance sender) (Decimal_str amount) = false ->
    Dec.sub (u_balance sender) (Decimal_str amount) = None ->
    str_raises amount = false ->
    send_money_case db uuid_s now_s uuid_r now_r sender_id recipient_email
      amount description (Raises db "decimal.Overflow")
| send_money_overflow_recipient i sender j recipient sender_balance :
    last_with (has_id sender_id) (values db) i sender ->
    last_with (has_email recipient_email) (values db) j recipient ->
    u_email sender <> recipient_email -> i <> j ->
    Dec.ltb (u_balance sender) (Decimal_str amount) = false ->
    Dec.sub (u_balance sender) (Decimal_str amount) = Some sender_balance ->
    Dec.add (u_balance recipient) (Decimal_str amount) = None ->
    str_raises amount = false ->
    send_money_case db uuid_s now_s uuid_r now_r sender_id recipient_email
      amount description
      (Raises {| users := write_balance (users db) i sender_balance;
                 transactions := transactions db |} "decimal.Overflow")
| send_money_float_overflow i sender j recipient sender_balance
    recipient_balance :
    last_with (has_id sender_id) (values db) i sender ->
    last_with (has_email recipient_email) (values db) j recipient ->
    u_email sender <> recipient_email -> i <> j ->
    Dec.ltb (u_balance sender) (Decimal_str amount) = false ->
    Dec.sub (u_balance sender) (Decimal_str amount) = Some sender_balance ->
    Dec.add (u_balance recipient) (Decimal_str amount)
    = Some recipient_balance ->
    to_float amount = None ->
    str_raises amount = false ->
    send_money_case db uuid_s now_s uuid_r now_r sender_id recipient_email
      amount description
      (Raises {| users :=
                   write_balance (write_balance (users db) i sender_balance)
                     j recipient_balance;
                 transactions := transactions db |} "OverflowError")
| send_money_done i sender j recipient sender_balance recipient_balance
    stored :
    last_with (has_id sender_id) (values db) i sender ->
    last_with (has_email recipient_email) (values db) j recipient ->
    u_email sender <> recipient_email -> i <> j ->
    Dec.ltb (u_balance sender) (Decimal_str amount) = false ->
    Dec.sub (u_balance sender) (Decimal_str amount) = Some sender_balance ->
    Dec.add (u_balance recipient) (Decimal_str amount)
    = Some recipient_balance ->
    to_float amount = Some stored ->
    str_raises amount = false ->
    let sender_tx :=
      transfer_out_tx uuid_s now_s sender_id recipient_email description
        stored sender_balance in
    let recipient_tx :=
      transfer_in_tx uuid_r now_r (u_id recipient) (u_email sender)
        stored recipient_balance in
    send_money_case db uuid_s now_s uuid_r now_r sender_id recipient_email
      amount description
      (Returns {| users :=
                    write_balance (write_balance (users db) i sender_balance)
                      j recipient_balance;
                  transactions :=
                    transactions db ++ [sender_tx; recipient_tx] |}
               (Some sender_balance, Some sender_tx, None)).

(** ** Runs used as examples *)

(** Two deposits to account "1" stamped with the same clock reading. *)
Definition same_instant_deposits : WalletDatabase :=
  run __init__
    [AddMoney "tx-1" "2025-01-01T12:00:00" "1" (a_float (Dec.mk 100 (-1)));
     AddMoney "tx-2" "2025-01-01T12:00:00" "1" (a_float (Dec.mk 200 (-1)))].

(** A deposit of 50.0 to account "1", then a transfer of 200.0 from it to
    bob@example.com. *)
Definition deposit_then_transfer : WalletDatabase :=
  run __init__
    [AddMoney "tx-1" "2025-01-01T12:00:00" "1" (a_float (Dec.mk 500 (-1)));
     SendMoney "tx-2" "2025-01-01T12:01:00" "tx-3" "2025-01-01T12:01:00"
       "1" "bob@example.com" (a_float (Dec.mk 2000 (-1))) None].

(** Account "2" (500.00) sends the float 4e-25 to alice@example.com
    (1000.00). *)
Definition rounded_transfer : WalletDatabase :=
  run __init__
    [SendMoney "tx-1" "2025-01-01T12:00:00" "tx-2" "2025-01-01T12:00:00"
       "2" "alice@example.com" (a_float (Dec.mk 4 (-25))) None].


(** ** The rest of the application

    The handlers of the login and registration forms ([handle_login],
    [handle_register] inside [show_auth_screen]), from the values of their
    text fields. *)

(** What the handler leaves on the screen: [error_text], or the wallet
    screen of [current_user['data']]. *)
Inductive auth_screen : Type :=
| AuthError (text : string)
| ShowWallet (current_user : option User).

(** [len(s)] for a [str]: the number of its code points.  A string of the
    model is the UTF-8 encoding of the text, one to four bytes for a code
    point, of which all but the first are continuation bytes, [10xxxxxx];
    these are not counted. *)
Definition continuation_byte (b : Ascii.ascii) : bool :=
  match b with
  | Ascii.Ascii _ _ _ _ _ _ b6 b7 => b7 && negb b6
  end.

Definition len (s : string) : nat :=
  length (List.filter (λ b, negb (continuation_byte b))
            (String.list_ascii_of_string s)).

(** [if error:], for an error slot that holds [None] or a message. *)
Definition truthy (error : option string) : bool :=
  match error with
  | Some text => negb (empty text)
  | None => false
  end.

Definition handle_login (db : WalletDatabase) (email password : string)
    : auth_screen :=
  if empty email || empty password then AuthError "Please fill in all fields"
  else
    let '(user, error) := login_user db email password in
    if truthy error then AuthError (default "" error) else ShowWallet user.

Definition handle_register (db : WalletDatabase) (uuid : string)
    (name email password : string) : WalletDatabase * auth_screen :=
  if empty name || empty email || empty password then
    (db, AuthError "Please fill in all fields")
  else if (len password <? 6)%nat then
    (db, AuthError "Password must be at least 6 characters")
  else
    let '(db', (user, error)) :=
      register_user db uuid email password name in
    if truthy error then (db', AuthError (default "" error))
    else (db', ShowWallet user).

(** A click on one of the buttons of the application, with the values of
    the fields, of [current_user['data']['id']] and of the clock and uuid
    readings the handler makes. *)
Inductive Click : Type :=
| ClickLogin (email password : string)
| ClickCreateAccount (uuid name email password : string)
| ClickAddMoney (uuid now current_user_id : string) (amount : Decimal)
| ClickSendMoney (uuid_s now_s uuid_r now_r current_user_id recipient : string)
    (amount : Decimal) (description : string).

(** The database a click leaves behind. *)
Definition click (db : WalletDatabase) (c : Click) : WalletDatabase :=
  match c with
  | ClickLogin _ _ => db
  | ClickCreateAccount uuid name email password =>
      (handle_register db uuid name email password).1
  | ClickAddMoney uuid now current_user_id amount =>
      db_of (UI.add_money db uuid now current_user_id amount)
  | ClickSendMoney uuid_s now_s uuid_r now_r current_user_id recipient amount
      description =>
      db_of (UI.send_money db uuid_s now_s uuid_r now_r current_user_id
               recipient amount description)
  end.

Definition clicks (db : WalletDatabase) (cs : list Click) : WalletDatabase :=
  foldl click db cs.

(** ** Further quantities and predicates *)

(** What identifies an account: its key in [self.users] and every field but
    the balance. *)
Definition identity (kv : string * User)
    : string * string * string * Digest * string :=
  (kv.1, u_id kv.2, u_email kv.2, u_password_hash kv.2, u_full_name kv.2).

(** [user] with the balance [b]. *)
Definition with_balance (b : Decimal) (user : User) : User :=
  (set_balance b ("", user)).2.

(** The keys of [self.users] are the emails of the accounts, each once. *)
Definition keyed (db : WalletDatabase) : Prop :=
  NoDup (users db).*1 /\ Forall (λ kv, kv.1 = u_email kv.2) (users db).

(** The call that [op] makes returns: no exception is raised. *)
Definition returned (db : WalletDatabase) (op : Op) : Prop :=
  match op with
  | RegisterUser _ _ _ _ => True
  | AddMoney uuid now user_id amount =>
      match add_money db uuid now user_id amount with
      | Returns _ _ => True
      | Raises _ _ => False
      end
  | SendMoney uuid_s now_s uuid_r now_r sender_id recipient_email amount d =>
      match send_money db uuid_s now_s uuid_r now_r sender_id recipient_email
              amount d with
      | Returns _ _ => True
      | Raises _ _ => False
      end
  end.

Fixpoint returned_run (db : WalletDatabase) (ops : list Op) : Prop :=
  match ops with
  | [] => True
  | op :: ops => returned db op /\ returned_run (step db op) ops
  end.

(** The last entry of every account states the account's balance. *)
Definition checksum (db : WalletDatabase) : Prop :=
  forall k kv tx,
    users db !! k = Some kv ->
    last (entries_of (u_id kv.2) (transactions db)) = Some tx ->
    tx_balance_after tx = PyFloat (u_balance kv.2).

(** ** [loops/1study1.py]

    [int(input(..))] makes of each line typed an integer or a [ValueError];
    the standard input is the list of these, and [input] raises [EOFError]
    at its end.  The standard output is the list of what is written:
    the prompt of [input], the lines of [print]. *)
Module Study1.

Inductive line : Type := Int (n : Z) | ValueError.

Inductive written : Type := Prompt (text : string) | Print (text : string).

Definition prompt : written :=
  Prompt "Enter amount of times you want to do task (Enter positive number): ".

(** [numberCounter]: what it writes, what it returns ([None] when [EOFError]
    propagates) and what it leaves unread. *)
Fixpoint numberCounter (stdin : list line)
    : list written * option Z * list line :=
  match stdin with
  | [] => ([prompt], None, [])
  | Int n :: rest =>
      if (0 <? n)%Z then ([prompt], Some n, rest)
      else
        let '(out, result, unread) := numberCounter rest in
        (prompt :: Print "Please enter a positive number." :: out,
         result, unread)
  | ValueError :: rest =>
      let '(out, result, unread) := numberCounter rest in
      (prompt :: Print "Invalid input. Please enter a number." :: out,
       result, unread)
  end.

(** [doTask]: [range(n)] is empty for [n <= 0]. *)
Definition doTask (n : Z) : list written :=
  replicate (Z.to_nat n) (Print "Task finished...").

(** [main]: what the program writes, and whether it ends normally. *)
Definition main (stdin : list line) : list written * bool :=
  let '(out, number, _) := numberCounter stdin in
  match number with
  | Some n => (out ++ doTask n, true)
  | None => (out, false)
  end.

(** A line that [numberCounter] does not accept. *)
Definition rejected (l : line) : Prop :=
  match l with
  | Int n => (n <= 0)%Z
  | ValueError => True
  end.

(** What [numberCounter] writes for a line it does not accept. *)
Definition complaint (l : line) : list written :=
  match l with
  | Int _ => [prompt; Print "Please enter a positive number."]
  | ValueError => [prompt; Print "Invalid input. Please enter a number."]
  end.

End Study1.

(** * Facts about the model *)

Local Open Scope Z_scope.

Module DecFacts.

Import Dec.

Lemma pow10_pos k : 0 <= k -> 0 < 10 ^ k.
Proof. intros Hk. apply Z.pow_pos_nonneg; lia. Qed.

Lemma pow10_nonneg k : 0 <= 10 ^ k.
Proof.
  destruct (Z.le_gt_cases 0 k) as [Hk|Hk].
  - pose proof (pow10_pos k Hk). lia.
  - rewrite Z.pow_neg_r by lia. lia.
Qed.

Lemma round_half_even_nonneg n k : 0 <= n -> 0 <= round_half_even n k.
Proof.
  intros Hn. unfold round_half_even.
  assert (0 <= n / 10 ^ k).
  { pose proof (pow10_nonneg k) as Hp.
    destruct (Z.eq_dec (10 ^ k) 0) as [->|Hne].
    - rewrite Z.div_0_r. lia.
    - apply Z.div_pos; lia. }
  destruct (2 * (n mod 10 ^ k) ?= 10 ^ k); [destruct (Z.even _)| |]; lia.
Qed.

(** Rounding never changes the sign of a result. *)
Lemma fix_nonneg c e r : fix_ c e = Some r -> 0 <= c -> 0 <= coefficient r.
Proof.
  unfold fix_. intros Hfix Hc.
  destruct (c =? 0); [injection Hfix as <-; simpl; lia|].
  destruct (_ >? Etop); [discriminate|].
  destruct (e <? _); [|injection Hfix as <-; simpl; lia].
  pose proof (round_half_even_nonneg (Z.abs c)
                (Z.max (ndigits (Z.abs c) + e - prec) Etiny - e)
                (Z.abs_nonneg c)) as Hr.
  destruct (ndigits _ <=? prec).
  - destruct (_ >? Etop); [discriminate|]. injection Hfix as <-. simpl.
    apply Z.mul_nonneg_nonneg; lia.
  - destruct (_ >? Etop); [discriminate|]. injection Hfix as <-. simpl.
    apply Z.mul_nonneg_nonneg; [lia|]. apply Z.div_pos; lia.
Qed.

Lemma add_nonneg x y r :
  add x y = Some r -> 0 <= coefficient x -> 0 <= coefficient y ->
  0 <= coefficient r.
Proof.
  unfold add, aligned. intros Hadd Hx Hy.
  apply fix_nonneg in Hadd; [exact Hadd|].
  pose proof (pow10_nonneg (exponent x - Z.min (exponent x) (exponent y))).
  pose proof (pow10_nonneg (exponent y - Z.min (exponent x) (exponent y))).
  nia.
Qed.

(** [x - y] is not negative when [x < y] is false. *)
Lemma sub_nonneg x y r :
  ltb x y = false -> sub x y = Some r -> 0 <= coefficient r.
Proof.
  unfold ltb, sub, add, neg, aligned. simpl. intros Hlt Hsub.
  apply Z.ltb_ge in Hlt.
  apply fix_nonneg in Hsub; [exact Hsub|]. lia.
Qed.

Lemma leb_0 a : leb a (mk 0 0) = true <-> coefficient a <= 0.
Proof.
  unfold leb, aligned. simpl. rewrite Z.leb_le.
  pose proof (pow10_pos (exponent a - Z.min (exponent a) 0) ltac:(lia)).
  nia.
Qed.

Lemma value_0_00 : (value (mk 0 (-2)) == 0)%Q.
Proof. reflexivity. Qed.

Lemma ndigits_fuel_le fuel : forall n d,
  0 <= n < 10 ^ d -> 1 <= d -> ndigits_fuel fuel n <= d.
Proof.
  induction fuel as [|fuel IH]; intros n d Hn Hd; simpl; [lia|].
  destruct (Z.ltb_spec n 10) as [Hlt|Hge]; [lia|].
  assert (2 <= d) as Hd2.
  { destruct (Z.eq_dec d 1) as [->|]; [|lia]. simpl in Hn. lia. }
  enough (ndigits_fuel fuel (n / 10) <= d - 1) by lia.
  apply IH; [|lia]. split; [apply Z.div_pos; lia|].
  apply Z.div_lt_upper_bound; [lia|].
  rewrite <- Z.pow_succ_r by lia. replace (Z.succ (d - 1)) with d by lia. lia.
Qed.

(** A result of at most 28 digits, with its exponent in range, is kept as
    it is. *)
Lemma fix_small c e :
  Z.abs c < 10 ^ prec -> Etiny <= e <= Etop -> fix_ c e = Some (mk c e).
Proof.
  intros Hc He. unfold fix_.
  destruct (Z.eqb_spec c 0) as [->|Hne].
  - f_equal. f_equal. unfold Etop, Emax, prec, Etiny in *. lia.
  - assert (ndigits (Z.abs c) <= prec) as Hnd.
    { apply ndigits_fuel_le; [lia | unfold prec; lia]. }
    destruct (Z.gtb_spec (ndigits (Z.abs c) + e - prec) Etop); [lia|].
    destruct (Z.ltb_spec e (Z.max (ndigits (Z.abs c) + e - prec) Etiny));
      [lia | done].
Qed.

Lemma value_aligned x y :
  (value x + value y
   == inject_Z (coefficient x * 10 ^ (exponent x - Z.min (exponent x) (exponent y))
                + coefficient y * 10 ^ (exponent y - Z.min (exponent x) (exponent y)))
      * (10 # 1) ^ Z.min (exponent x) (exponent y))%Q.
Proof.
  unfold value. set (e := Z.min (exponent x) (exponent y)).
  rewrite inject_Z_plus, !inject_Z_mult.
  rewrite !Zpower_Qpower by lia.
  replace (exponent x) with ((exponent x - e) + e) at 1 by lia.
  replace (exponent y) with ((exponent y - e) + e) at 1 by lia.
  rewrite !Qpower_plus by discriminate.
  change (inject_Z 10) with (10 # 1)%Q. ring.
Qed.

(** An addition whose aligned sum has at most 28 digits is exact. *)
Lemma add_small x y :
  let '(cx, cy, e) := aligned x y in
  Z.abs (cx + cy) < 10 ^ prec -> Etiny <= e <= Etop ->
  exists r, add x y = Some r /\ (value r == value x + value y)%Q.
Proof.
  unfold add, aligned. intros Hc He. rewrite fix_small by done.
  eexists. split; [reflexivity|]. rewrite value_aligned. reflexivity.
Qed.

Lemma value_neg y : (value (neg y) == - value y)%Q.
Proof. unfold value, neg. simpl. rewrite inject_Z_opp. ring. Qed.

End DecFacts.

Local Close Scope Z_scope.

Lemma first_with_id_None user_id vals i :
  first_with_id user_id vals i = None <->
  (forall u, u ∈ vals -> u_id u <> user_id).
Proof.
  revert i. induction vals as [|v vals IH]; intros i; simpl.
  - split; [intros _ u Hu; inversion Hu | done].
  - destruct (String.eqb_spec (u_id v) user_id) as [Heq|Hne].
    + split; [done|]. intros H. exfalso. apply (H v); [left | done].
    + rewrite IH. split.
      * intros H u Hu. inversion Hu; subst; auto.
      * intros H u Hu. apply H. by right.
Qed.

Lemma first_with_id_Some user_id vals i k u :
  first_with_id user_id vals i = Some (k, u) ->
  exists n, k = i + n /\ vals !! n = Some u /\ u_id u = user_id /\
    forall m u', m < n -> vals !! m = Some u' -> u_id u' <> user_id.
Proof.
  revert i. induction vals as [|v vals IH]; intros i; simpl; [done|].
  destruct (String.eqb_spec (u_id v) user_id) as [Heq|Hne].
  - intros [= <- <-]. exists 0. repeat split; auto with lia.
  - intros H. apply IH in H as (n & -> & Hn & Hid & Hbefore).
    exists (S n). repeat split; auto with lia.
    intros [|m] u' Hm; simpl; [by intros [= <-]|].
    apply Hbefore. lia.
Qed.

Lemma send_money_scan_last_match sender_id recipient_email vals i s r :
  send_money_scan sender_id recipient_email vals i s r =
  (last_match (λ u, String.eqb (u_id u) sender_id) vals i s,
   last_match (λ u, String.eqb (u_email u) recipient_email) vals i r).
Proof.
  revert i s r. induction vals as [|v vals IH]; intros i s r; simpl; [done|].
  apply IH.
Qed.

Lemma last_match_spec p vals i acc :
  (last_match p vals i acc = acc /\ forall u, u ∈ vals -> p u = false) \/
  (exists n u, last_match p vals i acc = Some (i + n, u) /\
     vals !! n = Some u /\ p u = true /\
     forall m u', n < m -> vals !! m = Some u' -> p u' = false).
Proof.
  revert i acc. induction vals as [|v vals IH]; intros i acc; simpl.
  - left. split; [done|]. intros u Hu. inversion Hu.
  - destruct (IH (S i) (if p v then Some (i, v) else acc))
      as [[Hacc Hnone]|(n & u & Hlast & Hn & Hp & Hafter)].
    + destruct (p v) eqn:Hpv.
      * right. exists 0, v. rewrite Hacc, Nat.add_0_r.
        repeat split; auto.
        intros [|m] u' Hm Hu'; [lia|]. simpl in Hu'.
        apply Hnone. by eapply list_elem_of_lookup_2.
      * left. split; [done|]. intros u Hu.
        inversion Hu; subst; auto.
    + right. exists (S n), u. rewrite Hlast.
      replace (S i + n) with (i + S n) by lia.
      repeat split; auto.
      intros [|m] u' Hm Hu'; [lia|]. simpl in Hu'.
      apply (Hafter m); [lia | done].
Qed.

Lemma last_match_None p vals :
  last_match p vals 0 None = None <-> (forall u, u ∈ vals -> p u = false).
Proof.
  destruct (last_match_spec p vals 0 None)
    as [[Hacc Hnone]|(n & u & Hlast & Hn & Hp & _)].
  - by split.
  - rewrite Hlast. split; [done|]. intros Hnone.
    rewrite Hnone in Hp; [done|]. by eapply list_elem_of_lookup_2.
Qed.

Lemma last_match_Some p vals k u :
  last_match p vals 0 None = Some (k, u) ->
  vals !! k = Some u /\ p u = true /\
  forall m u', k < m -> vals !! m = Some u' -> p u' = false.
Proof.
  destruct (last_match_spec p vals 0 None)
    as [[Hacc Hnone]|(n & u0 & Hlast & Hn & Hp & Hafter)].
  - rewrite Hacc. done.
  - rewrite Hlast. simpl. intros [= <- <-]. done.
Qed.

(** Writing a balance changes no key, id or email. *)
Lemma fmap_write_balance {B} (f : string * User -> B) us i b :
  (forall kv, f (set_balance b kv) = f kv) ->
  f <$> write_balance us i b = f <$> us.
Proof.
  intros Hf. unfold write_balance. revert i.
  induction us as [|kv us IH]; intros [|i]; simpl; try done.
  - by rewrite Hf.
  - f_equal. apply IH.
Qed.

Lemma length_write_balance us i b :
  length (write_balance us i b) = length us.
Proof. apply length_alter. Qed.

Lemma lookup_write_balance us i b :
  write_balance us i b !! i = set_balance b <$> us !! i.
Proof. apply list_lookup_alter_eq. Qed.

Lemma lookup_write_balance_ne us i j b :
  i <> j -> write_balance us i b !! j = us !! j.
Proof. apply list_lookup_alter_ne. Qed.

Lemma read_write_balance us i b :
  i < length us -> read_balance (write_balance us i b) i = b.
Proof.
  intros Hi. unfold read_balance. rewrite lookup_write_balance.
  destruct (lookup_lt_is_Some_2 us i Hi) as [kv ->]. done.
Qed.

Lemma read_write_balance_ne us i j b :
  i <> j -> read_balance (write_balance us i b) j = read_balance us j.
Proof.
  intros Hij. unfold read_balance. by rewrite lookup_write_balance_ne.
Qed.

Lemma values_lookup db i u :
  values db !! i = Some u <-> exists k, users db !! i = Some (k, u).
Proof.
  unfold values. rewrite list_lookup_fmap.
  destruct (users db !! i) as [[k u']|]; simpl; split.
  - intros [= ->]. eauto.
  - by intros [k' [= _ ->]].
  - done.
  - by intros [k' ?].
Qed.

Lemma read_balance_values db i u :
  values db !! i = Some u -> read_balance (users db) i = u_balance u.
Proof.
  intros [k Hk]%values_lookup. unfold read_balance. by rewrite Hk.
Qed.

Lemma last_with_unique P vals i u i' u' :
  last_with P vals i u -> last_with P vals i' u' -> i = i' /\ u = u'.
Proof.
  intros (Hi & HP & Hafter) (Hi' & HP' & Hafter').
  destruct (lt_eq_lt_dec i i') as [[Hlt|Heq]|Hgt].
  - destruct (Hafter i' u' Hlt Hi' HP').
  - subst i'. split; [done | congruence].
  - destruct (Hafter' i u Hgt Hi HP).
Qed.

Lemma add_money_cases db uuid now user_id amount :
  add_money_case db uuid now user_id amount
    (add_money db uuid now user_id amount).
Proof.
  unfold add_money.
  destruct (first_with_id user_id (values db) 0) as [[i u]|] eqn:Hfind.
  - apply first_with_id_Some in Hfind as (n & -> & Hn & Hid & Hbefore).
    simpl. rewrite (read_balance_values _ _ _ Hn).
    assert (first_with (has_id user_id) (values db) n u) by done.
    destruct (str_raises amount) eqn:Hstr; [by eapply add_money_str|].
    destruct (Dec.add (u_balance u) (Decimal_str amount)) as [balance|]
      eqn:Hadd; [|by eapply add_money_overflow].
    destruct (to_float amount) as [stored|] eqn:Hfloat.
    + by eapply add_money_done.
    + by eapply add_money_float_overflow.
  - apply add_money_not_found.
    exact (proj1 (first_with_id_None _ _ _) Hfind).
Qed.

Lemma lookup_values_lt db i u : values db !! i = Some u -> i < length (users db).
Proof.
  intros H%lookup_lt_Some. unfold values in H. by rewrite length_fmap in H.
Qed.

Lemma send_money_cases db uuid_s now_s uuid_r now_r sender_id recipient_email
    amount description :
  send_money_case db uuid_s now_s uuid_r now_r sender_id recipient_email
    amount description
    (send_money db uuid_s now_s uuid_r now_r sender_id recipient_email
       amount description).
Proof.
  unfold send_money. rewrite send_money_scan_last_match.
  destruct (last_match _ (values db) 0 None) as [[i sender]|] eqn:Hs.
  2:{ apply send_money_no_sender. intros u Hu.
      pose proof (proj1 (last_match_None _ _) Hs u Hu) as H.
      by apply String.eqb_neq. }
  apply last_match_Some in Hs as (Hi & His%String.eqb_eq & Hafter).
  assert (last_with (has_id sender_id) (values db) i sender) as Hsender.
  { repeat split; auto. intros m u' Hm Hu'.
    apply String.eqb_neq. eauto. }
  destruct (last_match (λ u, String.eqb (u_email u) recipient_email)
              (values db) 0 None) as [[j recipient]|] eqn:Hr.
  2:{ eapply send_money_no_recipient; [done|]. intros u Hu.
      pose proof (proj1 (last_match_None _ _) Hr u Hu) as H.
      by apply String.eqb_neq. }
  apply last_match_Some in Hr as (Hj & Hjs%String.eqb_eq & Hafterj).
  assert (last_with (has_email recipient_email) (values db) j recipient)
    as Hrecipient.
  { repeat split; auto. intros m u' Hm Hu'.
    apply String.eqb_neq. eauto. }
  destruct (String.eqb_spec (u_email sender) recipient_email) as [Hself|Hself].
  { by eapply send_money_self. }
  assert (i <> j) as Hij by (intros ->; congruence).
  destruct (str_raises amount) eqn:Hstr; [by eapply send_money_str|].
  rewrite (read_balance_values _ _ _ Hi).
  destruct (Dec.ltb (u_balance sender) (Decimal_str amount)) eqn:Hlt.
  { by eapply send_money_insufficient. }
  destruct (Dec.sub (u_balance sender) (Decimal_str amount)) as [sb|] eqn:Hsub.
  2:{ by eapply send_money_overflow_sender. }
  rewrite read_write_balance_ne by done.
  rewrite (read_balance_values _ _ _ Hj).
  destruct (Dec.add (u_balance recipient) (Decimal_str amount)) as [rb|]
    eqn:Hadd.
  2:{ by eapply send_money_overflow_recipient. }
  destruct (to_float amount) as [stored|] eqn:Hfloat.
  2:{ by eapply send_money_float_overflow. }
  rewrite read_write_balance_ne by done.
  rewrite read_write_balance by (by eapply lookup_values_lt).
  rewrite read_write_balance
    by (rewrite length_write_balance; by eapply lookup_values_lt).
  by eapply send_money_done.
Qed.

Lemma ids_write_balance us i b : ids (write_balance us i b) = ids us.
Proof. by apply fmap_write_balance. Qed.

Lemma ids_values db : ids (users db) = u_id <$> values db.
Proof. unfold ids, values. by rewrite <- list_fmap_compose. Qed.

Lemma elem_of_ids db user_id :
  user_id ∈ ids (users db) <-> exists u, u ∈ values db /\ u_id u = user_id.
Proof.
  rewrite ids_values, list_elem_of_fmap. split.
  - intros (u & -> & Hu). eauto.
  - intros (u & Hu & <-). eauto.
Qed.

Lemma run_cons db op ops : run db (op :: ops) = run (step db op) ops.
Proof. done. Qed.

(** An operation only appends accounts; it changes no id. *)
Lemma step_ids db op :
  exists new, ids (users (step db op)) = ids (users db) ++ new.
Proof.
  destruct op as [uuid email password full_name|uuid now user_id amount
                 |uuid_s now_s uuid_r now_r sender_id recipient_email amount d];
    simpl.
  - unfold register_user. destruct (has_key email (users db)); simpl.
    + exists []. by rewrite app_nil_r.
    + exists [uuid]. unfold ids. by rewrite fmap_app.
  - exists []. rewrite app_nil_r.
    destruct (add_money_cases db uuid now user_id amount); simpl;
      by rewrite ?ids_write_balance.
  - exists []. rewrite app_nil_r.
    destruct (send_money_cases db uuid_s now_s uuid_r now_r sender_id
                recipient_email amount d); simpl;
      by rewrite ?ids_write_balance.
Qed.

Lemma last_with_elem P vals i u : last_with P vals i u -> u ∈ vals /\ P u.
Proof. intros (Hi & HP & _). split; [by eapply list_elem_of_lookup_2 | done]. Qed.

Lemma first_with_elem P vals i u : first_with P vals i u -> u ∈ vals /\ P u.
Proof. intros (Hi & HP & _). split; [by eapply list_elem_of_lookup_2 | done]. Qed.

Lemma step_log_owned db op : log_owned db -> log_owned (step db op).
Proof.
  unfold log_owned. intros Hown.
  destruct op as [uuid email password full_name|uuid now user_id amount
                 |uuid_s now_s uuid_r now_r sender_id recipient_email amount d];
    simpl.
  - unfold register_user. destruct (has_key email (users db)); simpl; [done|].
    eapply Forall_impl; [exact Hown|]. intros tx Htx. simpl in Htx.
    unfold ids. rewrite fmap_app. apply elem_of_app. by left.
  - destruct (add_money_cases db uuid now user_id amount)
      as [| |i u Hfirst _|i u balance Hfirst _ _|i u balance stored Hfirst _ _];
      simpl; try done.
    + by rewrite ids_write_balance.
    + rewrite ids_write_balance. apply Forall_app. split; [done|].
      apply Forall_singleton. simpl.
      apply elem_of_ids. exists u. by apply first_with_elem in Hfirst.
  - destruct (send_money_cases db uuid_s now_s uuid_r now_r sender_id
                recipient_email amount d)
      as [| | | | | |i s j r sb Hs Hr|i s j r sb rb Hs Hr
         |i s j r sb rb stored Hs Hr]; simpl; try done.
    + by rewrite ids_write_balance.
    + by rewrite !ids_write_balance.
    + rewrite !ids_write_balance. apply Forall_app. split; [done|].
      apply last_with_elem in Hs, Hr.
      repeat apply Forall_cons_2; [| |done]; simpl; apply elem_of_ids.
      * exists s. done.
      * exists r. split; [tauto | done].
Qed.

Lemma run_invariant (P : WalletDatabase -> Prop) db ops :
  (forall db op, P db -> P (step db op)) -> P db -> P (run db ops).
Proof.
  intros Hstep. revert db. induction ops as [|op ops IH]; intros db Hdb.
  - done.
  - rewrite run_cons. apply IH. by apply Hstep.
Qed.

Lemma log_owned_init : log_owned __init__.
Proof. constructor. Qed.

Lemma slice_to_nil limit : slice_to limit [] = [].
Proof. unfold slice_to. destruct (0 <=? limit)%Z; by rewrite take_nil. Qed.

Lemma filter_none {A} (p : A -> bool) l :
  (forall x, x ∈ l -> p x = false) -> List.filter p l = [].
Proof.
  induction l as [|x l IH]; intros H; simpl; [done|].
  rewrite (H x) by left. apply IH. intros y Hy. apply H. by right.
Qed.

Lemma get_transactions_no_account db user_id limit :
  log_owned db -> user_id ∉ ids (users db) ->
  get_transactions db user_id limit = [].
Proof.
  intros Hown Hid. unfold get_transactions.
  rewrite filter_none; [apply slice_to_nil|].
  intros tx Htx. apply String.eqb_neq. intros <-.
  apply Hid. unfold log_owned in Hown. rewrite Forall_forall in Hown. auto.
Qed.

Lemma first_with_id_app_None user_id l l' i :
  first_with_id user_id l i = None ->
  first_with_id user_id (l ++ l') i = first_with_id user_id l' (i + length l).
Proof.
  revert i. induction l as [|v l IH]; intros i; simpl.
  - by rewrite Nat.add_0_r.
  - destruct (String.eqb (u_id v) user_id); [done|].
    intros H. rewrite IH by done. f_equal. lia.
Qed.

Lemma last_with_init_alice :
  last_with (has_id "1") (values __init__) 0
    {| u_id := "1"; u_email := "alice@example.com";
       u_password_hash := _hash_password "password123";
       u_full_name := "Alice Smith"; u_balance := Decimal_1000_00 |}.
Proof.
  repeat split. intros [|[|[|m]]] u' Hm; try lia; by intros [= <-].
Qed.

Lemma string_leb_refl s : String.leb s s = true.
Proof. by destruct (String.leb_total s s). Qed.

Lemma insert_by_timestamp_perm x l : insert_by_timestamp x l ≡ₚ x :: l.
Proof.
  induction l as [|y l IH]; simpl; [done|].
  destruct (String.leb (tx_timestamp y) (tx_timestamp x)); [done|].
  rewrite IH. apply perm_swap.
Qed.

Lemma sort_by_timestamp_reverse_perm l : sort_by_timestamp_reverse l ≡ₚ l.
Proof.
  induction l as [|x l IH]; simpl; [done|].
  rewrite insert_by_timestamp_perm. by rewrite IH.
Qed.

Lemma insert_by_timestamp_HdRel y x l :
  not_older y x -> HdRel not_older y l ->
  HdRel not_older y (insert_by_timestamp x l).
Proof.
  intros Hyx Hhd. destruct l as [|z l]; simpl; [by constructor|].
  destruct (String.leb (tx_timestamp z) (tx_timestamp x)); constructor;
    [done|]. by inversion Hhd.
Qed.

Lemma insert_by_timestamp_sorted x l :
  Sorted not_older l -> Sorted not_older (insert_by_timestamp x l).
Proof.
  induction 1 as [|y l Hsorted IH Hhd]; simpl.
  - by repeat constructor.
  - destruct (String.leb (tx_timestamp y) (tx_timestamp x)) eqn:Hle.
    + repeat constructor; done.
    + constructor; [done|]. apply insert_by_timestamp_HdRel; [|done].
      unfold not_older.
      destruct (String.leb_total (tx_timestamp x) (tx_timestamp y)); congruence.
Qed.

Lemma sort_by_timestamp_reverse_sorted l :
  Sorted not_older (sort_by_timestamp_reverse l).
Proof.
  induction l as [|x l IH]; simpl; [constructor|].
  by apply insert_by_timestamp_sorted.
Qed.

(** The sort is stable: entries with the same timestamp keep their order. *)
Lemma stamped_insert_by_timestamp t x l :
  stamped t (insert_by_timestamp x l) = stamped t (x :: l).
Proof.
  induction l as [|y l IH]; simpl; [done|].
  destruct (String.leb (tx_timestamp y) (tx_timestamp x)) eqn:Hle; [done|].
  simpl in *. rewrite IH.
  destruct (String.eqb_spec (tx_timestamp x) t) as [Hx|Hx]; [|done].
  destruct (String.eqb_spec (tx_timestamp y) t) as [Hy|Hy]; [|done].
  rewrite Hx, Hy, string_leb_refl in Hle. done.
Qed.

Lemma stamped_sort_by_timestamp_reverse t l :
  stamped t (sort_by_timestamp_reverse l) = stamped t l.
Proof.
  induction l as [|x l IH]; simpl; [done|].
  rewrite stamped_insert_by_timestamp. simpl. by rewrite IH.
Qed.

Lemma Forall_write_balance (Q : Decimal -> Prop) us i b :
  Forall (λ kv, Q (u_balance kv.2)) us -> Q b ->
  Forall (λ kv, Q (u_balance kv.2)) (write_balance us i b).
Proof.
  intros Hus Hb. unfold write_balance. revert i.
  induction Hus as [|kv us Hkv Hus IH]; intros [|i]; simpl;
    try constructor; try done.
  apply IH.
Qed.

Lemma non_negative_write_balance us i b log log' :
  non_negative {| users := us; transactions := log |} ->
  (0 <= Dec.coefficient b)%Z ->
  non_negative {| users := write_balance us i b; transactions := log' |}.
Proof.
  apply (Forall_write_balance (λ d, (0 <= Dec.coefficient d)%Z)).
Qed.

Lemma Forall_users_values (Q : User -> Prop) db :
  Forall (λ kv, Q kv.2) (users db) <-> Forall Q (values db).
Proof. unfold values. by rewrite Forall_fmap. Qed.

Lemma non_negative_lookup db i u :
  non_negative db -> values db !! i = Some u ->
  (0 <= Dec.coefficient (u_balance u))%Z.
Proof.
  intros Hdb Hi. unfold non_negative in Hdb.
  apply (Forall_users_values (λ u, (0 <= Dec.coefficient (u_balance u))%Z))
    in Hdb.
  rewrite Forall_lookup in Hdb. eauto.
Qed.

Lemma step_non_negative db op :
  positive_amount op -> non_negative db -> non_negative (step db op).
Proof.
  intros Hop Hdb.
  destruct op as [uuid email password full_name|uuid now user_id amount
                 |uuid_s now_s uuid_r now_r sender_id recipient_email amount d];
    simpl in *.
  - unfold register_user. destruct (has_key email (users db)); simpl; [done|].
    apply Forall_app. split; [done|]. by apply Forall_singleton.
  - assert (forall i u balance log',
              first_with (has_id user_id) (values db) i u ->
              Dec.add (u_balance u) (Decimal_str amount) = Some balance ->
              non_negative {| users := write_balance (users db) i balance;
                              transactions := log' |}) as Hwritten.
    { intros i u balance log' (Hi & _) Hadd. destruct db as [us log].
      simpl in *. eapply non_negative_write_balance; [exact Hdb|].
      eapply DecFacts.add_nonneg; [exact Hadd| |lia].
      by eapply (non_negative_lookup _ _ _ Hdb). }
    destruct (add_money_cases db uuid now user_id amount); simpl; try done;
      by eapply Hwritten.
  - assert (forall i s sb log',
              Dec.ltb (u_balance s) (Decimal_str amount) = false ->
              Dec.sub (u_balance s) (Decimal_str amount) = Some sb ->
              non_negative {| users := write_balance (users db) i sb;
                              transactions := log' |}) as Hsender.
    { intros i s sb log' Hlt Hsub. destruct db as [us log]. simpl in *.
      eapply non_negative_write_balance; [exact Hdb|].
      by eapply DecFacts.sub_nonneg. }
    assert (forall i s sb j r rb log',
              last_with (has_email recipient_email) (values db) j r ->
              Dec.ltb (u_balance s) (Decimal_str amount) = false ->
              Dec.sub (u_balance s) (Decimal_str amount) = Some sb ->
              Dec.add (u_balance r) (Decimal_str amount) = Some rb ->
              non_negative
                {| users := write_balance (write_balance (users db) i sb) j rb;
                   transactions := log' |}) as Hboth.
    { intros i s sb j r rb log' (Hj & _) Hlt Hsub Hadd.
      eapply (non_negative_write_balance _ _ _ log');
        [by eapply Hsender|].
      eapply DecFacts.add_nonneg; [exact Hadd| |lia].
      by eapply (non_negative_lookup _ _ _ Hdb). }
    destruct (send_money_cases db uuid_s now_s uuid_r now_r sender_id
                recipient_email amount d); simpl; try done;
      [by eapply Hsender | by eapply Hboth | by eapply Hboth].
Qed.

Lemma send_money_rejects_insufficient db uuid_s now_s uuid_r now_r sender_id
    recipient_email amount description i sender recipient :
  last_with (has_id sender_id) (values db) i sender ->
  recipient ∈ values db -> u_email recipient = recipient_email ->
  u_email sender <> recipient_email ->
  Dec.ltb (u_balance sender) (Decimal_str amount) = true ->
  send_money db uuid_s now_s uuid_r now_r sender_id recipient_email amount
    description
  = if str_raises amount then Raises db "ValueError"
    else Returns db (None, None, Some "Insufficient balance").
Proof.
  intros Hsender Hin Hemail Hself Hlt.
  destruct (send_money_cases db uuid_s now_s uuid_r now_r sender_id
              recipient_email amount description)
    as [Hnone|? ? _ Hnone|? ? ? ? Hs _ Hself'
       |? ? ? ? _ _ _ Hstr|? ? ? ? Hs _ _ _ Hstr|? ? ? ? Hs _ _ Hlt'
       |? ? ? ? ? Hs _ _ _ Hlt'|? ? ? ? ? ? Hs _ _ _ Hlt'
       |? ? ? ? ? ? ? Hs _ _ _ Hlt'].
  - apply last_with_elem in Hsender as [Hin' Hid]. destruct (Hnone _ Hin' Hid).
  - destruct (Hnone _ Hin Hemail).
  - destruct (last_with_unique _ _ _ _ _ _ Hs Hsender) as [<- <-]. done.
  - by rewrite Hstr.
  - by rewrite Hstr.
  - destruct (last_with_unique _ _ _ _ _ _ Hs Hsender) as [<- <-]. congruence.
  - destruct (last_with_unique _ _ _ _ _ _ Hs Hsender) as [<- <-]. congruence.
  - destruct (last_with_unique _ _ _ _ _ _ Hs Hsender) as [<- <-]. congruence.
  - destruct (last_with_unique _ _ _ _ _ _ Hs Hsender) as [<- <-]. congruence.
Qed.

Local Open Scope Q_scope.

(** Balance updates of at most 28 digits are exact: amounts in cents on
    balances below 10^26, for instance. *)
Lemma exact_add_small x y :
  (let '(cx, cy, e) := Dec.aligned x y in
   (Z.abs (cx + cy) < 10 ^ Dec.prec)%Z /\ (Dec.Etiny <= e <= Dec.Etop)%Z) ->
  exact_add x y.
Proof.
  intros H. pose proof (DecFacts.add_small x y) as Hsmall.
  unfold exact_add. destruct (Dec.aligned x y) as [[cx cy] e].
  destruct H as [Hc He]. destruct (Hsmall Hc He) as (r & -> & Hr). exact Hr.
Qed.

Lemma exact_sub_small x y :
  (let '(cx, cy, e) := Dec.aligned x (Dec.neg y) in
   (Z.abs (cx + cy) < 10 ^ Dec.prec)%Z /\ (Dec.Etiny <= e <= Dec.Etop)%Z) ->
  exact_sub x y.
Proof.
  intros H%exact_add_small. unfold exact_add, exact_sub, Dec.sub in *.
  destruct (Dec.add x (Dec.neg y)) as [r|]; [|done].
  rewrite H, DecFacts.value_neg. ring.
Qed.

Lemma first_with_first_with_id user_id vals i u :
  first_with (has_id user_id) vals i u ->
  first_with_id user_id vals 0 = Some (i, u).
Proof.
  intros (Hi & Hid & Hbefore).
  destruct (first_with_id user_id vals 0) as [[k u']|] eqn:Hfind.
  - apply first_with_id_Some in Hfind as (n & -> & Hn & Hid' & Hbefore').
    simpl. destruct (lt_eq_lt_dec i n) as [[Hlt|Heq]|Hgt].
    + destruct (Hbefore' i u Hlt Hi Hid).
    + subst n. congruence.
    + destruct (Hbefore n u' Hgt Hn Hid').
  - destruct (proj1 (first_with_id_None _ _ _) Hfind u); [|done].
    by eapply list_elem_of_lookup_2.
Qed.

Lemma last_with_last_match (p : User -> bool) vals i u :
  last_with (λ u, p u = true) vals i u ->
  last_match p vals 0 None = Some (i, u).
Proof.
  intros Hlast.
  destruct (last_match p vals 0 None) as [[k u']|] eqn:Hfind.
  - apply last_match_Some in Hfind as (Hk & Hp & Hafter).
    assert (last_with (λ u, p u = true) vals k u') as Hlast'.
    { repeat split; auto. intros m u0 Hm Hu0. rewrite (Hafter m u0); done. }
    by destruct (last_with_unique _ _ _ _ _ _ Hlast Hlast') as [<- <-].
  - destruct Hlast as (Hi & Hp & _).
    rewrite (proj1 (last_match_None _ _) Hfind u) in Hp; [done|].
    by eapply list_elem_of_lookup_2.
Qed.

Lemma last_with_impl (P Q : User -> Prop) vals i u :
  (forall u, P u <-> Q u) -> last_with P vals i u -> last_with Q vals i u.
Proof.
  intros HPQ (Hi & HP & Hafter). repeat split; [done|by apply HPQ|].
  intros m u' Hm Hu' HQ. apply (Hafter m u' Hm Hu'). by apply HPQ.
Qed.

Lemma send_money_scan_last_with sender_id recipient_email vals i s j r :
  last_with (has_id sender_id) vals i s ->
  last_with (has_email recipient_email) vals j r ->
  send_money_scan sender_id recipient_email vals 0 None None
  = (Some (i, s), Some (j, r)).
Proof.
  intros Hs Hr. rewrite send_money_scan_last_match. f_equal.
  - apply last_with_last_match. eapply last_with_impl; [|exact Hs].
    intros u. simpl. by rewrite String.eqb_eq.
  - apply last_with_last_match. eapply last_with_impl; [|exact Hr].
    intros u. simpl. by rewrite String.eqb_eq.
Qed.

Lemma total_app us us' : total (us ++ us') == total us + total us'.
Proof.
  induction us as [|kv us IH]; simpl; [ring|]. rewrite IH. ring.
Qed.

Lemma total_write_balance us i b :
  (i < length us)%nat ->
  total (write_balance us i b)
  == total us - Dec.value (read_balance us i) + Dec.value b.
Proof.
  unfold write_balance, read_balance. revert i.
  induction us as [|kv us IH]; intros [|i] Hi; simpl in Hi; try lia; simpl.
  - ring.
  - rewrite (IH i ltac:(lia)). ring.
Qed.

(** The effect of one operation on the total, when its arithmetic is exact. *)
Lemma step_total db op :
  exact_step db op -> returned db op ->
  total (users (step db op)) == total (users db) + deposit db op.
Proof.
  intros Hexact Hret.
  destruct op as [uuid email password full_name|uuid now user_id amount
                 |uuid_s now_s uuid_r now_r sender_id recipient_email amount d];
    simpl in *.
  - unfold register_user. destruct (has_key email (users db)); simpl; [ring|].
    rewrite total_app. simpl. rewrite DecFacts.value_0_00. ring.
  - revert Hret.
    destruct (add_money_cases db uuid now user_id amount)
      as [| |i u Hfirst Hadd|i u balance Hfirst Hadd Hfloat
         |i u balance stored Hfirst Hadd Hfloat Hstr]; simpl; intros Hret;
      [ring|done|done|done|].
    rewrite (first_with_first_with_id _ _ _ _ Hfirst), Hstr in Hexact.
    unfold exact_add in Hexact. rewrite Hadd in Hexact.
    destruct Hfirst as (Hi & _).
    rewrite (total_write_balance _ _ _ (lookup_values_lt _ _ _ Hi)).
    rewrite (read_balance_values _ _ _ Hi), Hexact. ring.
  - revert Hret.
    destruct (send_money_cases db uuid_s now_s uuid_r now_r sender_id
                recipient_email amount d)
      as [| | | | |i s j r Hs Hr Hself Hlt Hsub
         |i s j r sb Hs Hr Hself Hij Hlt Hsub Hadd
         |i s j r sb rb Hs Hr Hself Hij Hlt Hsub Hadd Hfloat
         |i s j r sb rb stored Hs Hr Hself Hij Hlt Hsub Hadd Hfloat Hstr];
      simpl; intros Hret; try ring; try done.
    rewrite (send_money_scan_last_with _ _ _ _ _ _ _ Hs Hr) in Hexact.
    apply String.eqb_neq in Hself. rewrite Hself, Hstr, Hlt in Hexact.
    destruct Hexact as [Hes Hea]. unfold exact_sub, exact_add in Hes, Hea.
    rewrite Hsub in Hes. rewrite Hadd in Hea.
    destruct Hs as (Hi & _), Hr as (Hj & _).
    pose proof (lookup_values_lt _ _ _ Hi) as Hilt.
    pose proof (lookup_values_lt _ _ _ Hj) as Hjlt.
    rewrite <- (length_write_balance _ i sb) in Hjlt.
    rewrite (total_write_balance _ _ _ Hjlt), (total_write_balance _ _ _ Hilt).
    rewrite read_write_balance_ne by done.
    rewrite (read_balance_values _ _ _ Hi), (read_balance_values _ _ _ Hj).
    rewrite Hes, Hea. ring.
Qed.

Lemma replay_app user_id l l' :
  replay user_id (l ++ l') == replay user_id l + replay user_id l'.
Proof.
  induction l as [|tx l IH]; simpl; [ring|].
  destruct (String.eqb (tx_user_id tx) user_id); rewrite IH; ring.
Qed.

Lemma replay_not_owned user_id l :
  Forall (λ tx, tx_user_id tx <> user_id) l -> replay user_id l == 0.
Proof.
  induction 1 as [|tx l Htx _ IH]; simpl; [reflexivity|].
  apply String.eqb_neq in Htx. by rewrite Htx.
Qed.

Lemma opening_fresh user_id :
  user_id <> "1" -> user_id <> "2" -> opening user_id == 0.
Proof.
  intros H1 H2. unfold opening, get_balance, values, __init__.
  cbn -[String.eqb].
  assert (String.eqb "1" user_id = false) as ->
    by (apply String.eqb_neq; congruence).
  assert (String.eqb "2" user_id = false) as ->
    by (apply String.eqb_neq; congruence).
  reflexivity.
Qed.

Lemma distinct_ids us k kv i kv' :
  NoDup (ids us) -> us !! k = Some kv -> us !! i = Some kv' -> k <> i ->
  u_id kv.2 <> u_id kv'.2.
Proof.
  intros Hnodup Hk Hi Hki Heq. apply Hki.
  assert (ids us !! k = Some (u_id kv.2)) as H1
    by (unfold ids; by rewrite list_lookup_fmap, Hk).
  assert (ids us !! i = Some (u_id kv.2)) as H2
    by (unfold ids; rewrite list_lookup_fmap, Hi; simpl; by rewrite Heq).
  exact (NoDup_lookup _ _ _ _ Hnodup H1 H2).
Qed.

Lemma lookup_write_balance_cases us i b k kv' :
  write_balance us i b !! k = Some kv' ->
  (k = i /\ exists kv, us !! i = Some kv /\ kv' = set_balance b kv) \/
  (k <> i /\ us !! k = Some kv').
Proof.
  destruct (decide (k = i)) as [->|Hne].
  - rewrite lookup_write_balance. destruct (us !! i) as [kv|]; simpl; [|done].
    intros [= <-]. left. eauto.
  - rewrite lookup_write_balance_ne by done. by right.
Qed.

Lemma run_ids db ops :
  exists new, ids (users (run db ops)) = ids (users db) ++ new.
Proof.
  revert db. induction ops as [|op ops IH]; intros db.
  - exists []. by rewrite app_nil_r.
  - rewrite run_cons. destruct (IH (step db op)) as [new' ->].
    destruct (step_ids db op) as [new ->].
    exists (new ++ new'). by rewrite app_assoc.
Qed.

Lemma step_seeded db op : seeded db -> seeded (step db op).
Proof.
  intros [H1 H2]. destruct (step_ids db op) as [new Hnew].
  unfold seeded. rewrite Hnew. split; apply elem_of_app; by left.
Qed.

Lemma to_float_Some amount stored :
  to_float amount = Some stored -> stored = PyFloat (Decimal_str amount).
Proof.
  destruct amount as [n|repr|d]; simpl; [|by intros [= <-]..].
  destruct (Z.abs n <? 2 ^ 1024 - 2 ^ 970)%Z; [by intros [= <-] | done].
Qed.

Lemma unique_id_ids user_id us :
  unique_id user_id us <->
  (forall k k',
     ids us !! k = Some user_id -> ids us !! k' = Some user_id -> k = k').
Proof.
  unfold unique_id, ids. split.
  - intros Hunique k k' Hk Hk'. rewrite list_lookup_fmap in Hk, Hk'.
    destruct (us !! k) as [kv|] eqn:Hkv; [|done].
    destruct (us !! k') as [kv'|] eqn:Hkv'; [|done].
    simpl in Hk, Hk'. eapply Hunique; eauto; congruence.
  - intros Hunique k k' kv kv' Hk Hk' Hid Hid'.
    apply Hunique; rewrite list_lookup_fmap; [rewrite Hk | rewrite Hk'];
      simpl; congruence.
Qed.

Lemma unique_id_prefix user_id us us' new :
  ids us' = ids us ++ new -> unique_id user_id us' -> unique_id user_id us.
Proof.
  rewrite !unique_id_ids. intros Hids Hunique k k' Hk Hk'.
  apply Hunique; rewrite Hids; by apply lookup_app_l_Some.
Qed.

Lemma step_unique_id user_id db op :
  unique_id user_id (users (step db op)) -> unique_id user_id (users db).
Proof.
  destruct (step_ids db op) as [new Hnew]. by apply unique_id_prefix with new.
Qed.

Lemma step_ledger user_id db op :
  log_owned db -> seeded db -> ledger user_id db ->
  exact_step db op -> float_amount op ->
  unique_id user_id (users (step db op)) -> ledger user_id (step db op).
Proof.
  intros Hown [Hs1 Hs2] Hledger Hexact Hfloat Hnew.
  pose proof (step_unique_id _ _ _ Hnew) as Hunique.
  destruct op as [uuid email password full_name|uuid now user_id' amount
                 |uuid_s now_s uuid_r now_r sender_id recipient_email amount d];
    simpl in Hexact, Hfloat, Hnew |- *.
  - unfold register_user in *.
    destruct (has_key email (users db)); simpl in *; [done|].
    intros k kv Hk Hid. simpl in Hk.
    apply lookup_app_Some in Hk as [Hk|[Hlen Hk]]; [by eapply Hledger|].
    apply list_lookup_singleton_Some in Hk as [Hk0 <-]. simpl in Hid.
    subst uuid.
    assert (user_id ∉ ids (users db)) as Hfresh.
    { intros (kv0 & Hid0 & Hin0)%list_elem_of_fmap.
      apply list_elem_of_lookup_1 in Hin0 as [k0 Hk0'].
      pose proof (lookup_lt_Some _ _ _ Hk0') as Hlt.
      assert (k0 = k) as ->; [|lia].
      eapply (Hnew k0 k kv0);
        [by apply lookup_app_l_Some
        |rewrite lookup_app_r by lia; rewrite Hk0; reflexivity
        |done|reflexivity]. }
    rewrite opening_fresh, replay_not_owned; [reflexivity| | |].
    + unfold log_owned in Hown. eapply Forall_impl; [exact Hown|].
      intros tx Htx Heq. simpl in Htx. by rewrite Heq in Htx.
    + intros ->. done.
    + intros ->. done.
  - destruct amount as [n|repr|dec]; try done.
    destruct (add_money_cases db uuid now user_id' (a_float repr))
      as [| |i u Hfirst Hadd|i u balance Hfirst Hadd Hstored
         |i u balance stored Hfirst Hadd Hstored]; simpl in *; try done.
    injection Hstored as <-.
    rewrite (first_with_first_with_id _ _ _ _ Hfirst) in Hexact.
    unfold exact_add in Hexact. rewrite Hadd in Hexact.
    destruct Hfirst as (Hi & Hid & _).
    apply values_lookup in Hi as [key Hi].
    intros k kv' Hk Hidk. simpl in Hk |- *. rewrite replay_app.
    apply lookup_write_balance_cases in Hk
      as [(-> & kv & Hkv & ->)|(Hne & Hk)]; simpl in *.
    + rewrite Hi in Hkv. injection Hkv as <-. simpl in *.
      assert (user_id' = user_id) as -> by congruence.
      rewrite String.eqb_refl, Hexact.
      rewrite (Hledger _ _ Hi Hidk).
      unfold signed_amount. simpl. ring.
    + assert (String.eqb user_id' user_id = false) as ->.
      { apply String.eqb_neq. intros ->. apply Hne.
        by apply (Hunique k i kv' (key, u)). }
      rewrite (Hledger _ _ Hk Hidk). ring.
  - destruct amount as [n|repr|dec]; try done.
    destruct (send_money_cases db uuid_s now_s uuid_r now_r sender_id
                recipient_email (a_float repr) d)
      as [| | | | |i s j r Hs Hr Hself Hlt Hsub
         |i s j r sb Hs Hr Hself Hij Hlt Hsub Hadd
         |i s j r sb rb Hs Hr Hself Hij Hlt Hsub Hadd Hstored
         |i s j r sb rb stored Hs Hr Hself Hij Hlt Hsub Hadd Hstored];
      simpl in *; try done;
      rewrite (send_money_scan_last_with _ _ _ _ _ _ _ Hs Hr) in Hexact;
      pose proof Hself as Hself'; apply String.eqb_neq in Hself';
      rewrite Hself', Hlt in Hexact;
      destruct Hexact as [Hes Hea]; unfold exact_sub, exact_add in Hes, Hea;
      rewrite Hsub in Hes; rewrite Hadd in Hea; try done.
    injection Hstored as <-.
    destruct Hs as (Hi & Hsid & _), Hr as (Hj & Hrem & _).
    apply values_lookup in Hi as [key_s Hi].
    apply values_lookup in Hj as [key_r Hj].
    simpl in Hsid.
    intros k kv' Hk Hidk. simpl in Hk |- *. rewrite replay_app. simpl.
    apply lookup_write_balance_cases in Hk
      as [(-> & kv & Hkv & ->)|(Hnej & Hk)]; simpl in *.
    + rewrite lookup_write_balance_ne in Hkv by done.
      rewrite Hj in Hkv. injection Hkv as <-. simpl in *.
      assert (String.eqb sender_id user_id = false) as ->.
      { apply String.eqb_neq. intros ->. apply Hij.
        by apply (Hunique i j (key_s, s) (key_r, r)). }
      rewrite Hidk, String.eqb_refl, Hea, (Hledger _ _ Hj Hidk).
      unfold signed_amount. simpl. ring.
    + apply lookup_write_balance_cases in Hk
        as [(-> & kv & Hkv & ->)|(Hnei & Hk)]; simpl in *.
      * rewrite Hi in Hkv. injection Hkv as <-. simpl in *.
        assert (sender_id = user_id) as -> by congruence.
        assert (String.eqb (u_id r) user_id = false) as ->.
        { apply String.eqb_neq. intros Hr. apply Hij.
          by apply (Hunique i j (key_s, s) (key_r, r)). }
        rewrite String.eqb_refl, Hes, (Hledger _ _ Hi Hidk).
        unfold signed_amount. simpl. ring.
      * assert (String.eqb sender_id user_id = false) as ->.
        { apply String.eqb_neq. intros ->. apply Hnei.
          by apply (Hunique k i kv' (key_s, s)). }
        assert (String.eqb (u_id r) user_id = false) as ->.
        { apply String.eqb_neq. intros Hr. apply Hnej.
          by apply (Hunique k j kv' (key_r, r)). }
        rewrite (Hledger _ _ Hk Hidk). ring.
Qed.

Local Close Scope Q_scope.

Lemma replay_perm user_id l l' :
  l ≡ₚ l' -> (replay user_id l == replay user_id l')%Q.
Proof.
  induction 1 as [|tx l l' _ IH|tx tx' l|l l' l'' _ IH _ IH']; simpl.
  - reflexivity.
  - destruct (String.eqb (tx_user_id tx) user_id); rewrite IH; reflexivity.
  - destruct (String.eqb (tx_user_id tx) user_id),
             (String.eqb (tx_user_id tx') user_id); ring.
  - by rewrite IH.
Qed.

Lemma ledger_init user_id : ledger user_id __init__.
Proof.
  intros [|[|k]] kv Hk Hid; simpl in Hk; try done;
    injection Hk as <-; simpl in Hid; subst user_id; vm_compute; reflexivity.
Qed.

Lemma seeded_init : seeded __init__.
Proof. split; unfold ids; simpl; [left | right; left]. Qed.

Lemma run_ledger user_id ops db :
  log_owned db -> seeded db -> ledger user_id db ->
  exact_run db ops -> Forall float_amount ops ->
  unique_id user_id (users (run db ops)) -> ledger user_id (run db ops).
Proof.
  revert db. induction ops as [|op ops IH];
    intros db Hown Hseeded Hledger Hexact Hfloat Hunique; [done|].
  destruct Hexact as [Hop Hops]. apply Forall_cons in Hfloat as [Hf Hfs].
  rewrite run_cons in Hunique |- *.
  apply IH; auto using step_log_owned, step_seeded.
  apply step_ledger; auto.
  destruct (run_ids (step db op) ops) as [new Hnew].
  exact (unique_id_prefix _ _ _ _ Hnew Hunique).
Qed.

(** Where an entry of the log comes from. *)
Lemma step_stored db op tx :
  tx ∈ transactions (step db op) ->
  tx ∈ transactions db \/
  exists amount,
    amount_of op = Some amount /\ kind_of op tx /\
    to_float amount = Some (tx_amount tx).
Proof.
  destruct op as [uuid email password full_name|uuid now user_id amount
                 |uuid_s now_s uuid_r now_r sender_id recipient_email amount d];
    simpl.
  - unfold register_user. destruct (has_key email (users db)); by left.
  - destruct (add_money_cases db uuid now user_id amount); simpl;
      try by left.
    intros [Hold|Hnew%list_elem_of_singleton]%elem_of_app; [by left|].
    subst tx. right. by exists amount.
  - destruct (send_money_cases db uuid_s now_s uuid_r now_r sender_id
                recipient_email amount d); simpl; try by left.
    intros [Hold|Hnew]%elem_of_app; [by left|]. right. exists amount.
    apply elem_of_cons in Hnew as [->|Hnew]; [simpl; auto|].
    apply list_elem_of_singleton in Hnew as ->. simpl. auto.
Qed.

Lemma run_stored ops db tx :
  tx ∈ transactions (run db ops) ->
  tx ∈ transactions db \/
  exists op amount,
    op ∈ ops /\ amount_of op = Some amount /\ kind_of op tx /\
    to_float amount = Some (tx_amount tx).
Proof.
  revert db. induction ops as [|op ops IH]; intros db Htx; [by left|].
  rewrite run_cons in Htx.
  destruct (IH _ Htx) as [Hstep|(op' & amount & Hop & Hrest)].
  - destruct (step_stored _ _ _ Hstep) as [Hold|(amount & Hrest)];
      [by left|].
    right. exists op, amount. split; [left | done].
  - right. exists op', amount. split; [by right | done].
Qed.

Lemma half_tiny_lt_int n :
  (1 <= n)%Z -> (half_tiny < Dec.value (Dec.mk n 0))%Q.
Proof.
  intros Hn. unfold Dec.value, half_tiny, Qlt.
  cbn [Dec.coefficient Dec.exponent Qpower Qnum Qden Qmult inject_Z].
  assert (1 < Z.pos (2 ^ 1075))%Z as Hpow
    by (rewrite Pos2Z.inj_pow; apply Z.pow_gt_1; lia).
  change (Z.pos (1 * 1)) with 1%Z.
  generalize dependent (Z.pos (2 ^ 1075)). intros p Hpow. nia.
Qed.

(** * The properties *)

(** C1, as the code has it.  Along any sequence of [register_user],
    [add_money] and [send_money] calls that pass positive amounts, every
    balance is at least zero after each call; and a transfer whose amount
    exceeds the sender's balance is rejected with "Insufficient balance" and
    leaves the database, balances and log, as it was.  (When the amount is
    an [int] too long for [str], the balance check raises [ValueError]
    instead, and the database is as it was too.) *)
Theorem balances_never_negative :
  (forall ops,
     Forall positive_amount ops -> non_negative (run __init__ ops)) /\
  (forall db uuid_s now_s uuid_r now_r sender_id recipient_email amount
          description i sender recipient,
     last_with (has_id sender_id) (values db) i sender ->
     recipient ∈ values db -> u_email recipient = recipient_email ->
     u_email sender <> recipient_email ->
     Dec.ltb (u_balance sender) (Decimal_str amount) = true ->
     send_money db uuid_s now_s uuid_r now_r sender_id recipient_email amount
       description
     = if str_raises amount then Raises db "ValueError"
       else Returns db (None, None, Some "Insufficient balance")).
Proof.
  split; [|apply send_money_rejects_insufficient].
  intros ops Hpos.
  assert (non_negative __init__) as Hinit.
  { unfold non_negative. simpl. repeat constructor; simpl; lia. }
  revert Hinit. generalize __init__ as db.
  induction Hpos as [|op ops Hop Hpos IH]; intros db Hdb; [done|].
  rewrite run_cons. apply IH. by apply step_non_negative.
Qed.

Lemma balances_never_negative_witness :
  non_negative
    (run __init__
       [AddMoney "tx-1" "2025-01-01T12:00:00" "1" (a_float (Dec.mk 500 (-1)));
        SendMoney "tx-2" "2025-01-01T12:01:00" "tx-3" "2025-01-01T12:01:00"
          "1" "bob@example.com" (a_float (Dec.mk 2000 (-1))) None;
        SendMoney "tx-4" "2025-01-01T12:02:00" "tx-5" "2025-01-01T12:02:00"
          "1" "bob@example.com" (a_float (Dec.mk 10000 (-1))) None]).
Proof.
  apply (proj1 balances_never_negative).
  repeat constructor; simpl; lia.
Defined.

(** C1, counterexample.  [add_money] with the amount -2000.0 for account "1"
    is not rejected and leaves the balance -1000.00. *)
Lemma balances_never_negative_counterexample :
  exists db' tx,
    add_money __init__ "tx-1" "2025-01-01T12:00:00" "1"
      (a_float (Dec.mk (-20000) (-1)))
    = Returns db' (Some (Dec.mk (-100000) (-2)), Some tx, None) /\
    get_balance db' "1" = Dec.mk (-100000) (-2) /\
    (Dec.coefficient (get_balance db' "1") < 0)%Z.
Proof. do 2 eexists. vm_compute. repeat split. Qed.

(** C2, as the code has it.  A successful [send_money] whose two balance
    updates are exact leaves the sum of all balances as it was; and after any
    sequence of operations none of which raised and whose balance updates
    are exact, the sum of all balances is the initial sum plus the amounts of
    the deposits that succeeded. *)
Theorem transfers_conserve_total :
  (forall db uuid_s now_s uuid_r now_r sender_id recipient_email amount
          description db' balance tx,
     send_money db uuid_s now_s uuid_r now_r sender_id recipient_email amount
       description = Returns db' (balance, tx, None) ->
     exact_step db
       (SendMoney uuid_s now_s uuid_r now_r sender_id recipient_email amount
          description) ->
     (total (users db') == total (users db))%Q) /\
  (forall ops,
     exact_run __init__ ops -> returned_run __init__ ops ->
     (total (users (run __init__ ops))
      == total (users __init__) + deposits __init__ ops)%Q).
Proof.
  split.
  - intros db uuid_s now_s uuid_r now_r sender_id recipient_email amount
      description db' balance tx Hresult Hexact.
    apply step_total in Hexact; simpl in Hexact |- *;
      rewrite Hresult in *; [|done].
    simpl in Hexact. rewrite Hexact. ring.
  - intros ops. generalize __init__ as db.
    induction ops as [|op ops IH]; intros db Hexact Hret.
    + simpl. ring.
    + destruct Hexact as [Hop Hops], Hret as [Hrop Hrops]. rewrite run_cons.
      rewrite (IH _ Hops Hrops), (step_total _ _ Hop Hrop). cbn [deposits].
      ring.
Qed.

Lemma transfers_conserve_total_witness :
  (total
     (users
        (run __init__
           [AddMoney "tx-1" "2025-01-01T12:00:00" "1"
              (a_float (Dec.mk 500 (-1)));
            SendMoney "tx-2" "2025-01-01T12:01:00" "tx-3"
              "2025-01-01T12:01:00" "1" "bob@example.com"
              (a_float (Dec.mk 2000 (-1))) None]))
   == total (users __init__) + Dec.value (Dec.mk 500 (-1)) + 0)%Q.
Proof.
  rewrite (proj2 transfers_conserve_total
             [AddMoney "tx-1" "2025-01-01T12:00:00" "1"
                (a_float (Dec.mk 500 (-1)));
              SendMoney "tx-2" "2025-01-01T12:01:00" "tx-3"
                "2025-01-01T12:01:00" "1" "bob@example.com"
                (a_float (Dec.mk 2000 (-1))) None]).
  - vm_compute. reflexivity.
  - vm_compute. repeat split.
  - vm_compute. repeat split.
Defined.

(** C2, counterexample.  Account "2" (500.00) sends the float 4e-25 to
    alice@example.com (1000.00).  The call succeeds; the sender's balance
    becomes 499.9999999999999999999999996 while the recipient's sum, which
    needs 29 digits, is rounded back to 1000.000000000000000000000000: the
    sum of all balances has decreased. *)
Lemma transfers_conserve_total_counterexample :
  exists db' tx,
    send_money __init__ "tx-1" "2025-01-01T12:00:00" "tx-2"
      "2025-01-01T12:00:00" "2" "alice@example.com"
      (a_float (Dec.mk 4 (-25))) None
    = Returns db' (Some (Dec.mk 4999999999999999999999999996 (-25)),
                   Some tx, None) /\
    get_balance db' "1" = Dec.mk 1000000000000000000000000000 (-24) /\
    ~ (total (users db') == total (users __init__))%Q.
Proof.
  do 2 eexists. split; [vm_compute; reflexivity|].
  split; [vm_compute; reflexivity|].
  vm_compute. discriminate.
Qed.

(** C3, as the code has it.  The amount is checked by the wallet-screen
    handlers, not by the database methods.  For [amount <= 0] the handler of
    "Add Money" shows "Amount must be positive", and so does the handler of
    "Send Money" when the recipient field is filled in; with an empty
    recipient field that handler returns at once and shows nothing, whatever
    the amount.  In each case the database is left as it was, no balance
    changed and no entry appended. *)
Theorem handlers_reject_non_positive_amount db amount :
  (Dec.coefficient amount <= 0)%Z ->
  (forall uuid now current_user_id,
     UI.add_money db uuid now current_user_id amount
     = Returns db (UI.Error "Amount must be positive")) /\
  (forall uuid_s now_s uuid_r now_r current_user_id recipient description,
     recipient <> "" ->
     UI.send_money db uuid_s now_s uuid_r now_r current_user_id recipient
       amount description
     = Returns db (Some (UI.Error "Amount must be positive"))) /\
  (forall uuid_s now_s uuid_r now_r current_user_id description,
     UI.send_money db uuid_s now_s uuid_r now_r current_user_id ""
       amount description
     = Returns db None).
Proof.
  intros Hle%DecFacts.leb_0. split; [|split].
  - intros. unfold UI.add_money, UI.le_0. by rewrite Hle.
  - intros uuid_s now_s uuid_r now_r current_user_id recipient description
      Hrecipient%String.eqb_neq.
    unfold UI.send_money, UI.le_0, empty. by rewrite Hrecipient, Hle.
  - done.
Qed.

Lemma handlers_reject_non_positive_amount_witness :
  UI.add_money __init__ "tx-1" "2025-01-01T12:00:00" "1" (Dec.mk (-50) (-1))
  = Returns __init__ (UI.Error "Amount must be positive") /\
  UI.send_money __init__ "tx-1" "2025-01-01T12:00:00" "tx-2"
    "2025-01-01T12:00:00" "1" "bob@example.com" (Dec.mk (-50) (-1)) ""
  = Returns __init__ (Some (UI.Error "Amount must be positive")).
Proof.
  destruct (handlers_reject_non_positive_amount __init__ (Dec.mk (-50) (-1)))
    as (Hadd & Hsend & _).
  - simpl. lia.
  - split; [apply Hadd | by apply Hsend].
Defined.

(** C3, counterexample.  [add_money] itself, called with the amount -5.0 for
    account "1", reports no error: the balance goes from 1000.00 to 995.00
    and a credit entry of -5.0 is appended. *)
Lemma add_money_non_positive_amount_counterexample :
  exists db' tx,
    add_money __init__ "tx-1" "2025-01-01T12:00:00" "1"
      (a_float (Dec.mk (-50) (-1)))
    = Returns db' (Some (Dec.mk 99500 (-2)), Some tx, None) /\
    get_balance db' "1" = Dec.mk 99500 (-2) /\
    transactions db' = [tx] /\
    tx_amount tx = PyFloat (Dec.mk (-50) (-1)).
Proof. do 2 eexists. vm_compute. repeat split. Qed.

(** C4, as the code has it.  [send_money] checks four conditions, in this
    order: the sender exists (the last account with that id), the recipient
    address resolves, the sender's address differs from it, the sender's
    balance is not below the amount.  The first that fails decides the error
    returned, and a call that returns an error leaves the database, balances
    and log, as it was.  The sign of the amount is not among the checks.
    (The fourth check needs [str(amount)]: when the amount is an [int] too
    long for it, [ValueError] is raised there, the database as it was.) *)
Theorem send_money_checks db uuid_s now_s uuid_r now_r sender_id
    recipient_email amount description :
  let result :=
    send_money db uuid_s now_s uuid_r now_r sender_id recipient_email amount
      description in
  ((forall u, u ∈ values db -> u_id u <> sender_id) ->
   result = Returns db (None, None, Some "Sender not found")) /\
  (forall i sender,
     last_with (has_id sender_id) (values db) i sender ->
     ((forall u, u ∈ values db -> u_email u <> recipient_email) ->
      result = Returns db (None, None, Some "Recipient not found")) /\
     (forall recipient,
        recipient ∈ values db -> u_email recipient = recipient_email ->
        (u_email sender = recipient_email ->
         result
         = Returns db (None, None, Some "Cannot send money to yourself")) /\
        (u_email sender <> recipient_email ->
         Dec.ltb (u_balance sender) (Decimal_str amount) = true ->
         result
         = if str_raises amount then Raises db "ValueError"
           else Returns db (None, None, Some "Insufficient balance")))) /\
  (forall db' balance tx error,
     result = Returns db' (balance, tx, Some error) -> db' = db).
Proof.
  intros result. subst result.
  pose proof (send_money_cases db uuid_s now_s uuid_r now_r sender_id
                recipient_email amount description) as Hcase.
  split; [|split].
  - intros Hmissing.
    destruct Hcase as [ |? ? Hs| ? ? ? ? Hs| ? ? ? ? Hs| ? ? ? ? Hs
                      | ? ? ? ? Hs| ? ? ? ? ? Hs| ? ? ? ? ? ? Hs
                      | ? ? ? ? ? ? ? Hs];
      [done|..];
      apply last_with_elem in Hs as [Hin Hid]; destruct (Hmissing _ Hin Hid).
  - intros i sender Hsender. split.
    + intros Hmissing.
      destruct Hcase as [Hnone| |? ? ? ? _ Hr|? ? ? ? _ Hr|? ? ? ? _ Hr
                        |? ? ? ? _ Hr|? ? ? ? ? _ Hr|? ? ? ? ? ? _ Hr
                        |? ? ? ? ? ? ? _ Hr];
        [apply last_with_elem in Hsender as [Hin Hid];
         destruct (Hnone _ Hin Hid)
        |done|..];
        apply last_with_elem in Hr as [Hin Hid];
        destruct (Hmissing _ Hin Hid).
    + intros recipient Hin Hemail.
      pose proof (send_money_rejects_insufficient db uuid_s now_s uuid_r now_r
                    sender_id recipient_email amount description i sender
                    recipient Hsender Hin Hemail) as Hinsufficient.
      split; [|exact Hinsufficient].
      intros Hself.
      destruct Hcase as [Hnone|? ? _ Hnone|? ? ? ? Hs _ _
                        |? ? ? ? Hs _ Hne|? ? ? ? Hs _ Hne|? ? ? ? Hs _ Hne
                        |? ? ? ? ? Hs _ Hne|? ? ? ? ? ? Hs _ Hne
                        |? ? ? ? ? ? ? Hs _ Hne];
        [apply last_with_elem in Hsender as [Hin' Hid];
         destruct (Hnone _ Hin' Hid)
        |destruct (Hnone _ Hin Hemail)
        |done|..];
        destruct (last_with_unique _ _ _ _ _ _ Hs Hsender) as [<- <-]; done.
  - intros db' balance tx error Hresult.
    destruct Hcase; by simplify_eq.
Qed.

Lemma send_money_checks_witness :
  send_money __init__ "tx-1" "2025-01-01T12:00:00" "tx-2" "2025-01-01T12:00:00"
    "1" "bob@example.com" (a_float (Dec.mk 20000 (-1))) None
  = Returns __init__ (None, None, Some "Insufficient balance").
Proof.
  pose proof (send_money_checks __init__ "tx-1" "2025-01-01T12:00:00" "tx-2"
                "2025-01-01T12:00:00" "1" "bob@example.com"
                (a_float (Dec.mk 20000 (-1))) None) as (_ & Hsender & _).
  destruct (Hsender _ _ last_with_init_alice) as [_ Hrecipient].
  refine (proj2 (Hrecipient
            {| u_id := "2"; u_email := "bob@example.com";
               u_password_hash := _hash_password "password123";
               u_full_name := "Bob Johnson"; u_balance := Decimal_500_00 |}
            _ eq_refl) _ eq_refl).
  - unfold values. simpl. right. left.
  - done.
Defined.

(** C4, counterexample.  A transfer of -5.0 from account "1" to
    bob@example.com passes every check: no error is returned, the sender's
    balance rises to 1005.00, the recipient's falls to 495.00 and two entries
    are appended. *)
Lemma send_money_checks_counterexample :
  exists db' tx,
    send_money __init__ "tx-1" "2025-01-01T12:00:00" "tx-2"
      "2025-01-01T12:00:00" "1" "bob@example.com"
      (a_float (Dec.mk (-50) (-1))) None
    = Returns db' (Some (Dec.mk 100500 (-2)), Some tx, None) /\
    get_balance db' "1" = Dec.mk 100500 (-2) /\
    get_balance db' "2" = Dec.mk 49500 (-2) /\
    length (transactions db') = 2.
Proof. do 2 eexists. vm_compute. repeat split. Qed.

(** C5, as the code has it.  The two seeded accounts start with 1000.00 and
    500.00 and no entry, so a balance is its opening balance plus the replay
    of its entries.  After any sequence of operations that pass floats, as
    the handlers do, and whose balance updates are exact, for every account
    whose id no other account has, the balance equals the opening balance of
    that id plus the sum of the credit and transfer_in amounts minus the
    transfer_out amounts of its entries, each stored amount read back as
    [Decimal(str(amount))], the entries taken in timestamp order or in any
    other order. *)
Theorem balance_reconstruction ops k user log :
  Forall float_amount ops ->
  exact_run __init__ ops ->
  values (run __init__ ops) !! k = Some user ->
  (forall k' user',
     values (run __init__ ops) !! k' = Some user' ->
     u_id user' = u_id user -> k' = k) ->
  log ≡ₚ transactions (run __init__ ops) ->
  (Dec.value (u_balance user)
   == opening (u_id user) + replay (u_id user) log)%Q.
Proof.
  intros Hfloat Hexact Hk Honly Hlog.
  assert (unique_id (u_id user) (users (run __init__ ops))) as Hunique.
  { intros k1 k2 [key1 u1] [key2 u2] H1 H2 Hid1 Hid2. simpl in Hid1, Hid2.
    rewrite (Honly k1 u1), (Honly k2 u2); try done; apply values_lookup;
      eauto. }
  pose proof (run_ledger (u_id user) ops __init__ log_owned_init seeded_init
                (ledger_init _) Hexact Hfloat Hunique) as Hledger.
  apply values_lookup in Hk as [key Hk].
  rewrite (replay_perm _ _ _ Hlog). exact (Hledger _ _ Hk eq_refl).
Qed.

Lemma balance_reconstruction_witness :
  (Dec.value (Dec.mk 85000 (-2))
   == opening "1"
      + replay "1"
          (sort_by_timestamp_reverse (transactions deposit_then_transfer)))%Q.
Proof.
  apply (balance_reconstruction
           [AddMoney "tx-1" "2025-01-01T12:00:00" "1"
              (a_float (Dec.mk 500 (-1)));
            SendMoney "tx-2" "2025-01-01T12:01:00" "tx-3"
              "2025-01-01T12:01:00" "1" "bob@example.com"
              (a_float (Dec.mk 2000 (-1))) None]
           0
           {| u_id := "1"; u_email := "alice@example.com";
              u_password_hash := _hash_password "password123";
              u_full_name := "Alice Smith"; u_balance := Dec.mk 85000 (-2) |}).
  - repeat constructor.
  - vm_compute. repeat split.
  - vm_compute. reflexivity.
  - intros [|[|k']] user' Huser Hid; [reflexivity| |]; vm_compute in Huser.
    + injection Huser as <-. discriminate Hid.
    + discriminate Huser.
  - apply sort_by_timestamp_reverse_perm.
Defined.

(** C5, counterexample.  In the initial database account "1" has the balance
    1000.00 and no entry: the replay of its entries gives 0.  And after
    account "2" has sent the float 4e-25 to it, its balance is still 1000
    (the sum was rounded) while its opening balance plus the replay is
    1000 + 4E-25. *)
Lemma balance_reconstruction_counterexample :
  (transactions __init__ = [] /\
   get_balance __init__ "1" = Decimal_1000_00 /\
   ~ (Dec.value (get_balance __init__ "1")
      == replay "1" (transactions __init__))%Q) /\
  ~ (Dec.value (get_balance rounded_transfer "1")
     == opening "1" + replay "1" (transactions rounded_transfer))%Q.
Proof.
  split.
  - split; [reflexivity|]. split; [reflexivity|]. vm_compute. discriminate.
  - vm_compute. discriminate.
Qed.

(** C6, as the code has it.  Balances are [Decimal] values; an entry stores
    binary floats.  Every entry of the log was appended by an [add_money] or
    a [send_money] call and stores [float(amount)] for the amount that call
    was passed, with its sign: in a credit entry for [add_money], in a
    transfer_out and in a transfer_in entry for [send_money], so the
    direction is in the type of the entry, the debit entry does not negate
    the amount.  The stored float is positive exactly when
    [Decimal(str(amount))] is above 2^-1075, half the smallest positive
    float, and negative exactly when it is below -2^-1075; it is positive for
    every positive [int]. *)
Theorem stored_amounts ops tx :
  tx ∈ transactions (run __init__ ops) ->
  exists op amount,
    op ∈ ops /\ amount_of op = Some amount /\ kind_of op tx /\
    to_float amount = Some (tx_amount tx) /\
    (positive_float (tx_amount tx)
     <-> (half_tiny < Dec.value (Decimal_str amount))%Q) /\
    (negative_float (tx_amount tx)
     <-> (Dec.value (Decimal_str amount) < - half_tiny)%Q) /\
    (forall n, amount = an_int n -> (0 < n)%Z ->
               positive_float (tx_amount tx)).
Proof.
  intros Htx.
  destruct (run_stored ops __init__ tx Htx)
    as [Hinit|(op & amount & Hop & Hamount & Hkind & Hfloat)];
    [by apply elem_of_nil in Hinit|].
  exists op, amount. do 4 (split; [done|]).
  rewrite (to_float_Some _ _ Hfloat). simpl. split; [done|]. split; [done|].
  intros n -> Hn. apply half_tiny_lt_int. lia.
Qed.

Lemma stored_amounts_witness :
  exists op amount,
    op ∈ [AddMoney "tx-1" "2025-01-01T12:00:00" "1"
            (a_float (Dec.mk 500 (-1)))] /\
    amount_of op = Some amount /\
    kind_of op
      (credit_tx "tx-1" "2025-01-01T12:00:00" "1" (PyFloat (Dec.mk 500 (-1)))
         (Dec.mk 105000 (-2))) /\
    to_float amount = Some (PyFloat (Dec.mk 500 (-1))) /\
    (positive_float (PyFloat (Dec.mk 500 (-1)))
     <-> (half_tiny < Dec.value (Decimal_str amount))%Q) /\
    (negative_float (PyFloat (Dec.mk 500 (-1)))
     <-> (Dec.value (Decimal_str amount) < - half_tiny)%Q) /\
    (forall n, amount = an_int n -> (0 < n)%Z ->
               positive_float (PyFloat (Dec.mk 500 (-1)))).
Proof.
  apply (stored_amounts
           [AddMoney "tx-1" "2025-01-01T12:00:00" "1"
              (a_float (Dec.mk 500 (-1)))]
           (credit_tx "tx-1" "2025-01-01T12:00:00" "1"
              (PyFloat (Dec.mk 500 (-1))) (Dec.mk 105000 (-2)))).
  vm_compute. left.
Defined.

(** C6, counterexample.  After [add_money] with the float -5.0 the log holds
    an entry whose amount is a negative float.  And after [add_money] with
    [Decimal('1E-400')], a positive amount, the log holds an entry whose
    amount is the float 0.0: what is stored is the nearest binary float, not
    the decimal. *)
Lemma stored_amounts_counterexample :
  (exists tx,
     tx ∈ transactions
            (run __init__
               [AddMoney "tx-1" "2025-01-01T12:00:00" "1"
                  (a_float (Dec.mk (-50) (-1)))]) /\
     tx_amount tx = PyFloat (Dec.mk (-50) (-1)) /\
     negative_float (tx_amount tx) /\ ~ positive_float (tx_amount tx)) /\
  (exists tx,
     tx ∈ transactions
            (run __init__
               [AddMoney "tx-1" "2025-01-01T12:00:00" "1"
                  (a_Decimal (Dec.mk 1 (-400)))]) /\
     (0 < Dec.coefficient (Decimal_str (a_Decimal (Dec.mk 1 (-400)))))%Z /\
     to_float (a_Decimal (Dec.mk 1 (-400))) = Some (tx_amount tx) /\
     zero_float (tx_amount tx) /\ ~ positive_float (tx_amount tx)).
Proof.
  split.
  - eexists. split; [vm_compute; left|]. split; [reflexivity|].
    split; vm_compute; [reflexivity | discriminate].
  - eexists. split; [vm_compute; left|]. split; [reflexivity|].
    split; [reflexivity|].
    split; [split; vm_compute; discriminate | vm_compute; discriminate].
Qed.

(** C7, as the code has it.  [get_transactions] returns the first [limit]
    entries of the account's history; the history holds exactly the entries
    of that account, newest timestamp first, and entries with the same
    timestamp are in insertion order, the earlier-inserted first.  The
    default [limit] is 10. *)
Theorem get_transactions_order db user_id limit :
  (0 <= limit)%Z ->
  default_limit = 10%Z /\
  exists history,
    history ≡ₚ entries_of user_id (transactions db) /\
    Sorted not_older history /\
    (forall t,
       stamped t history = stamped t (entries_of user_id (transactions db))) /\
    get_transactions db user_id limit = take (Z.to_nat limit) history.
Proof.
  intros Hlimit. split; [done|].
  exists (sort_by_timestamp_reverse (entries_of user_id (transactions db))).
  split; [apply sort_by_timestamp_reverse_perm|].
  split; [apply sort_by_timestamp_reverse_sorted|].
  split; [intros t; apply stamped_sort_by_timestamp_reverse|].
  unfold get_transactions, slice_to.
  by rewrite (proj2 (Z.leb_le 0 limit) Hlimit).
Qed.

Lemma get_transactions_order_witness :
  exists history,
    history ≡ₚ entries_of "1" (transactions same_instant_deposits) /\
    Sorted not_older history /\
    (forall t,
       stamped t history
       = stamped t (entries_of "1" (transactions same_instant_deposits))) /\
    get_transactions same_instant_deposits "1" 10 = take 10 history.
Proof.
  apply (get_transactions_order same_instant_deposits "1" 10). lia.
Defined.

(** C7, counterexample.  Of two entries of account "1" with equal
    timestamps, the one inserted first comes first in the history. *)
Lemma get_transactions_order_counterexample :
  exists first second,
    transactions same_instant_deposits = [first; second] /\
    tx_timestamp first = tx_timestamp second /\
    first <> second /\
    get_transactions same_instant_deposits "1" default_limit
    = [first; second].
Proof.
  do 2 eexists. split; [vm_compute; reflexivity|].
  split; [reflexivity|]. split; [discriminate|]. vm_compute. reflexivity.
Qed.

(** C8. A successful [send_money] appends exactly two entries: a
    transfer_out entry for the sender and a transfer_in entry for the
    recipient, with the same amount, the first carrying the recipient's
    address and the second the sender's.  No operation creates one of the two
    without the other: what an operation appends is nothing, one credit
    entry, or such a pair. *)
Theorem send_money_appends_pair :
  (forall db uuid_s now_s uuid_r now_r sender_id recipient_email amount
          description db' balance tx,
     send_money db uuid_s now_s uuid_r now_r sender_id recipient_email amount
       description = Returns db' (balance, tx, None) ->
     exists sender recipient sender_tx recipient_tx,
       sender ∈ values db /\ u_id sender = sender_id /\
       recipient ∈ values db /\ u_email recipient = recipient_email /\
       transactions db' = transactions db ++ [sender_tx; recipient_tx] /\
       tx_type sender_tx = transfer_out /\
       tx_user_id sender_tx = u_id sender /\
       tx_type recipient_tx = transfer_in /\
       tx_user_id recipient_tx = u_id recipient /\
       tx_amount sender_tx = PyFloat (Decimal_str amount) /\
       tx_amount recipient_tx = PyFloat (Decimal_str amount) /\
       tx_recipient_email sender_tx = Some (u_email recipient) /\
       tx_sender_email recipient_tx = Some (u_email sender)) /\
  (forall db op,
     exists new,
       transactions (step db op) = transactions db ++ new /\ appended new).
Proof.
  split.
  - intros db uuid_s now_s uuid_r now_r sender_id recipient_email amount
      description db' balance tx Hresult.
    destruct (send_money_cases db uuid_s now_s uuid_r now_r sender_id
                recipient_email amount description)
      as [ | | | | | | | |i s j r sb rb stored Hs Hr _ _ _ _ _ Hfloat];
      try discriminate Hresult.
    injection Hresult as <- <- <-.
    apply to_float_Some in Hfloat as ->.
    apply last_with_elem in Hs as [Hs Hid], Hr as [Hr Hemail].
    exists s, r. do 2 eexists. simpl.
    repeat split; try done. by rewrite Hemail.
  - intros db op.
    destruct op as [uuid email password full_name|uuid now user_id amount
                   |uuid_s now_s uuid_r now_r sender_id recipient_email amount d];
      simpl.
    + exists []. rewrite app_nil_r. split; [|constructor].
      unfold register_user. by destruct (has_key email (users db)).
    + destruct (add_money_cases db uuid now user_id amount); simpl;
        try (exists []; rewrite app_nil_r; split; [done|constructor]).
      eexists. split; [done|]. by constructor.
    + destruct (send_money_cases db uuid_s now_s uuid_r now_r sender_id
                  recipient_email amount d); simpl;
        try (exists []; rewrite app_nil_r; split; [done|constructor]).
      eexists. split; [done|]. by constructor.
Qed.

Lemma send_money_appends_pair_witness :
  exists sender_tx recipient_tx,
    transactions
      (db_of (send_money __init__ "tx-1" "2025-01-01T12:00:00" "tx-2"
                "2025-01-01T12:00:01" "1" "bob@example.com"
                (a_float (Dec.mk 2000 (-1))) None))
    = [sender_tx; recipient_tx] /\
    tx_recipient_email sender_tx = Some "bob@example.com" /\
    tx_sender_email recipient_tx = Some "alice@example.com".
Proof.
  destruct (proj1 send_money_appends_pair __init__ "tx-1" "2025-01-01T12:00:00"
              "tx-2" "2025-01-01T12:00:01" "1" "bob@example.com"
              (a_float (Dec.mk 2000 (-1))) None _ _ _ eq_refl)
    as (sender & recipient & sender_tx & recipient_tx & Hs & Hid & Hr & Hemail
        & Hlog & _ & _ & _ & _ & _ & _ & Hout & Hin).
  exists sender_tx, recipient_tx. split; [exact Hlog|].
  assert (u_email sender = "alice@example.com") as Hse.
  { unfold values in Hs. simpl in Hs.
    apply elem_of_cons in Hs as [->|Hs]; [done|].
    apply elem_of_cons in Hs as [->|Hs]; [done|]. inversion Hs. }
  split; [by rewrite Hout, Hemail | by rewrite Hin, Hse].
Defined.

(** C9, as the code has it.  [get_transactions] reports no error: for a
    [user_id] that belongs to no account it returns the empty list, after
    any sequence of operations. *)
Theorem get_transactions_unknown_account ops user_id limit :
  (forall u, u ∈ values (run __init__ ops) -> u_id u <> user_id) ->
  get_transactions (run __init__ ops) user_id limit = [].
Proof.
  intros Hmissing. apply get_transactions_no_account.
  - apply run_invariant; [apply step_log_owned | apply log_owned_init].
  - rewrite elem_of_ids. intros (u & Hu & Hid). by apply (Hmissing u).
Qed.

Lemma get_transactions_unknown_account_witness :
  get_transactions
    (run __init__
       [AddMoney "tx-1" "2025-01-01T12:00:00" "1" (a_float (Dec.mk 500 (-1)))])
    "3" default_limit = [].
Proof.
  apply get_transactions_unknown_account.
  intros u Hu. vm_compute in Hu.
  repeat (apply elem_of_cons in Hu as [->|Hu]; [done|]).
  inversion Hu.
Defined.

(** C9, counterexample.  On the initial database the id "3" belongs to no
    account, and the query returns a list, the empty one, not an error. *)
Lemma get_transactions_unknown_account_counterexample :
  ("3" ∉ ids (users __init__)) /\
  get_transactions __init__ "3" default_limit = [].
Proof.
  split; [|reflexivity].
  intros H. vm_compute in H.
  repeat (apply elem_of_cons in H as [?|H]; [done|]).
  inversion H.
Qed.

(** C10. [get_balance] answers [Decimal('0.00')] for a [user_id] that belongs
    to no account, and it gives the same answer once an account with that id
    has been registered (its balance is then [Decimal('0.00')]): the query
    does not tell a missing account from an empty one. *)
Theorem get_balance_missing_account db user_id :
  (forall u, u ∈ values db -> u_id u <> user_id) ->
  get_balance db user_id = Decimal_0_00 /\
  forall email password full_name,
    has_key email (users db) = false ->
    let db' := (register_user db user_id email password full_name).1 in
    (exists u, u ∈ values db' /\ u_id u = user_id) /\
    get_balance db' user_id = Decimal_0_00.
Proof.
  intros Hmissing.
  pose proof (proj2 (first_with_id_None user_id (values db) 0) Hmissing)
    as Hnone.
  split.
  - unfold get_balance. by rewrite Hnone.
  - intros email password full_name Hfree. unfold register_user.
    rewrite Hfree. simpl. split.
    + eexists. split.
      * unfold values. simpl. rewrite fmap_app. apply elem_of_app. right.
        simpl. left.
      * reflexivity.
    + unfold get_balance, values. simpl. rewrite fmap_app.
      fold (values db). rewrite first_with_id_app_None by done. simpl.
      by rewrite String.eqb_refl.
Qed.

Lemma get_balance_missing_account_witness :
  get_balance __init__ "3" = Decimal_0_00 /\
  get_balance
    (register_user __init__ "3" "carol@example.com" "secret" "Carol").1 "3"
  = Decimal_0_00.
Proof.
  assert (forall u, u ∈ values __init__ -> u_id u <> "3") as Hmissing.
  { intros u Hu. unfold values in Hu. simpl in Hu.
    repeat (apply elem_of_cons in Hu as [->|Hu]; [done|]).
    inversion Hu. }
  destruct (get_balance_missing_account __init__ "3" Hmissing) as [H0 Hreg].
  split; [exact H0|].
  exact (proj2 (Hreg "carol@example.com" "secret" "Carol" eq_refl)).
Defined.

(** * Further properties of the application *)

(** ** Accounts and log only grow *)

Lemma set_balance_with_balance b kv :
  set_balance b kv = (kv.1, with_balance b kv.2).
Proof. by destruct kv. Qed.

Lemma identities_write_balance us i b :
  identity <$> write_balance us i b = identity <$> us.
Proof. by apply fmap_write_balance. Qed.

Lemma has_key_elem email us : has_key email us = true <-> email ∈ us.*1.
Proof.
  unfold has_key. rewrite existsb_exists. split.
  - intros (k & Hk & ->%String.eqb_eq). by apply list_elem_of_In.
  - intros Hk. exists email. split; [by apply list_elem_of_In|].
    apply String.eqb_refl.
Qed.

Lemma keys_identities (us : list (string * User)) :
  us.*1 = (λ t, t.1.1.1.1) <$> (identity <$> us).
Proof. rewrite <- list_fmap_compose. by apply list_fmap_ext. Qed.

(** What an operation does to the accounts: it changes balances only, or it
    appends the account that [register_user] creates. *)
Lemma step_users db op :
  identity <$> users (step db op) = identity <$> users db \/
  exists uuid email password full_name,
    op = RegisterUser uuid email password full_name /\
    has_key email (users db) = false /\
    users (step db op)
    = users db
        ++ [(email, {| u_id := uuid; u_email := email;
                       u_password_hash := _hash_password password;
                       u_full_name := full_name;
                       u_balance := Decimal_0_00 |})].
Proof.
  destruct op as [uuid email password full_name|uuid now user_id amount
                 |uuid_s now_s uuid_r now_r sender_id recipient_email amount d];
    simpl.
  - unfold register_user.
    destruct (has_key email (users db)) eqn:Hkey; simpl; [by left|].
    right. by exists uuid, email, password, full_name.
  - left. destruct (add_money_cases db uuid now user_id amount); simpl;
      by rewrite ?identities_write_balance.
  - left. destruct (send_money_cases db uuid_s now_s uuid_r now_r sender_id
                      recipient_email amount d); simpl;
      by rewrite ?identities_write_balance.
Qed.

Lemma step_identities db op :
  exists new, identity <$> users (step db op) = (identity <$> users db) ++ new.
Proof.
  destruct (step_users db op) as [->|(? & ? & ? & ? & _ & _ & ->)].
  - exists []. by rewrite app_nil_r.
  - eexists. by rewrite fmap_app.
Qed.

Lemma step_transactions db op :
  exists new, transactions (step db op) = transactions db ++ new.
Proof.
  destruct op as [uuid email password full_name|uuid now user_id amount
                 |uuid_s now_s uuid_r now_r sender_id recipient_email amount d];
    simpl.
  - exists []. rewrite app_nil_r. unfold register_user.
    by destruct (has_key email (users db)).
  - destruct (add_money_cases db uuid now user_id amount); simpl;
      try (exists []; by rewrite app_nil_r). by eexists.
  - destruct (send_money_cases db uuid_s now_s uuid_r now_r sender_id
                recipient_email amount d); simpl;
      try (exists []; by rewrite app_nil_r). by eexists.
Qed.

(** X1. No operation removes or rewrites what is stored: after any sequence
    of operations the log is the old log followed by new entries, and the
    accounts are the old accounts, each with its key, id, email, password
    hash and name unchanged, followed by new accounts. *)
Theorem run_only_appends db ops :
  (exists entries,
     transactions (run db ops) = transactions db ++ entries) /\
  (exists accounts,
     identity <$> users (run db ops) = (identity <$> users db) ++ accounts).
Proof.
  revert db. induction ops as [|op ops IH]; intros db.
  - split; exists []; by rewrite app_nil_r.
  - rewrite run_cons. destruct (IH (step db op)) as [[es ->] [acs ->]].
    destruct (step_transactions db op) as [es' ->].
    destruct (step_identities db op) as [acs' ->].
    split; eexists; by rewrite <- app_assoc.
Qed.

Lemma run_identities db ops :
  exists new, identity <$> users (run db ops) = (identity <$> users db) ++ new.
Proof.
  revert db. induction ops as [|op ops IH]; intros db.
  - exists []. by rewrite app_nil_r.
  - rewrite run_cons. destruct (IH (step db op)) as [new' ->].
    destruct (step_identities db op) as [new ->].
    exists (new ++ new'). by rewrite app_assoc.
Qed.

Lemma run_keys db ops email :
  email ∈ (users db).*1 -> email ∈ (users (run db ops)).*1.
Proof.
  intros Hin. destruct (run_identities db ops) as [new Hnew].
  rewrite keys_identities, Hnew, fmap_app, <- keys_identities.
  apply elem_of_app. by left.
Qed.

(** X2. An email registers once: after [register_user] has been called with
    an email, whether it created the account or found the email taken, every
    later [register_user] with that email, whatever operations came in
    between, returns "Email already registered" and changes nothing. *)
Theorem register_user_twice db uuid email password full_name ops uuid'
    password' full_name' :
  let db1 := (register_user db uuid email password full_name).1 in
  let db2 := run db1 ops in
  register_user db2 uuid' email password' full_name'
  = (db2, (None, Some "Email already registered")).
Proof.
  intros db1 db2.
  assert (email ∈ (users db1).*1) as Hin.
  { subst db1. unfold register_user.
    destruct (has_key email (users db)) eqn:Hkey; simpl.
    - by apply has_key_elem.
    - rewrite fmap_app. apply elem_of_app. right. simpl. left. }
  apply (run_keys _ ops) in Hin. fold db2 in Hin.
  apply has_key_elem in Hin. unfold register_user. by rewrite Hin.
Qed.

Lemma step_keyed db op : keyed db -> keyed (step db op).
Proof.
  unfold keyed. intros [Hnodup Hkeys].
  assert (forall us : list (string * User),
            Forall (λ kv, kv.1 = u_email kv.2) us <->
            Forall (λ t : string * string * string * Digest * string,
                      t.1.1.1.1 = t.1.1.2) (identity <$> us)) as Hid.
  { intros us. by rewrite Forall_fmap. }
  destruct (step_users db op)
    as [Hsame|(uuid & email & password & full_name & _ & Hkey & ->)].
  - rewrite keys_identities, Hid, Hsame, <- keys_identities, <- Hid. done.
  - split.
    + rewrite fmap_app. simpl. apply NoDup_app. split; [done|].
      split; [|apply NoDup_singleton].
      intros k Hk ->%list_elem_of_singleton.
      apply has_key_elem in Hk. congruence.
    + apply Forall_app. split; [done|]. by apply Forall_singleton.
Qed.

(** X3. The keys of [self.users] are the emails of the accounts and no email
    occurs twice, after any sequence of operations. *)
Theorem emails_unique ops :
  let db := run __init__ ops in
  NoDup (u_email <$> values db) /\
  Forall (λ kv, kv.1 = u_email kv.2) (users db).
Proof.
  intros db.
  assert (keyed db) as [Hnodup Hkeys].
  { apply run_invariant; [apply step_keyed|].
    split; [|by repeat constructor].
    unfold __init__. simpl. apply NoDup_cons. split.
    - intros H%list_elem_of_singleton. discriminate.
    - apply NoDup_singleton. }
  split; [|done].
  replace (u_email <$> values db) with (users db).*1; [done|].
  unfold values. rewrite <- list_fmap_compose.
  apply Forall_fmap_ext_1. eapply Forall_impl; [exact Hkeys|]. by intros [].
Qed.

(** ** Logging in *)

Lemma login_user_found db email password i k user :
  list_find (λ kv : string * User, kv.1 = email) (users db)
  = Some (i, (k, user)) ->
  (u_password_hash user = _hash_password password ->
   login_user db email password = (Some user, None)) /\
  (u_password_hash user <> _hash_password password ->
   login_user db email password = (None, Some "Invalid email or password")).
Proof.
  intros Hfind. unfold login_user. rewrite Hfind.
  destruct (u_password_hash user) as [p]. unfold _hash_password.
  destruct (String.eqb_spec p password) as [->|Hne]; split; try done.
  intros [= ?]. done.
Qed.

Lemma login_user_inv db email password user :
  login_user db email password = (Some user, None) ->
  exists i k,
    list_find (λ kv : string * User, kv.1 = email) (users db)
    = Some (i, (k, user)) /\
    u_password_hash user = _hash_password password.
Proof.
  unfold login_user.
  destruct (list_find _ (users db)) as [[i [k u]]|] eqn:Hfind; [|done].
  destruct (u_password_hash u) as [p] eqn:Hp. unfold _hash_password.
  destruct (String.eqb_spec p password) as [->|Hne]; [|done].
  intros [= ->]. exists i, k. by rewrite Hp.
Qed.

(** X4. [login_user] returns an account only if it is stored under that
    email and its password hash is the hash of the password given; when no
    account stored under the email has that hash, the unknown email
    included, the answer is the one message "Invalid email or password". *)
Theorem login_user_checks db email password :
  (forall user,
     login_user db email password = (Some user, None) ->
     (email, user) ∈ users db /\
     u_password_hash user = _hash_password password) /\
  ((forall user,
      (email, user) ∈ users db ->
      u_password_hash user <> _hash_password password) ->
   login_user db email password = (None, Some "Invalid email or password")).
Proof.
  split.
  - intros user (i & k & Hfind & Hhash)%login_user_inv.
    apply list_find_Some in Hfind as (Hi & Hk & _). simpl in Hk. subst k.
    split; [by eapply list_elem_of_lookup_2 | done].
  - intros Hwrong.
    destruct (list_find (λ kv : string * User, kv.1 = email) (users db))
      as [[i [k u]]|] eqn:Hfind.
    + apply (login_user_found _ _ password) in Hfind as Hcases.
      apply (proj2 Hcases).
      apply list_find_Some in Hfind as (Hi & Hk & _). simpl in Hk. subst k.
      apply Hwrong. by eapply list_elem_of_lookup_2.
    + unfold login_user. by rewrite Hfind.
Qed.

Lemma login_user_checks_witness :
  login_user __init__ "alice@example.com" "password124"
  = (None, Some "Invalid email or password").
Proof.
  apply (proj2 (login_user_checks __init__ "alice@example.com" "password124")).
  intros user Hin. simpl in Hin.
  apply elem_of_cons in Hin as [Heq|Hin]; [injection Heq as ->; discriminate|].
  apply elem_of_cons in Hin as [Heq|Hin]; [discriminate Heq|]. inversion Hin.
Defined.

Lemma lookup_identities us us' new i kv :
  identity <$> us' = (identity <$> us) ++ new ->
  us !! i = Some kv ->
  exists kv', us' !! i = Some kv' /\ identity kv' = identity kv.
Proof.
  intros Hid Hi.
  assert ((identity <$> us') !! i = Some (identity kv)) as Hi'.
  { rewrite Hid. apply lookup_app_l_Some. by rewrite list_lookup_fmap, Hi. }
  rewrite list_lookup_fmap in Hi'.
  destruct (us' !! i) as [kv'|]; [|done]. simpl in Hi'.
  exists kv'. split; [done | congruence].
Qed.

(** Who an email and password resolve to depends on the identities only,
    and on no account added later. *)
Lemma login_user_grow db db' new email password user :
  identity <$> users db' = (identity <$> users db) ++ new ->
  login_user db email password = (Some user, None) ->
  exists user',
    login_user db' email password = (Some user', None) /\
    identity (email, user') = identity (email, user).
Proof.
  intros Hid (i & k & Hfind & Hhash)%login_user_inv.
  apply list_find_Some in Hfind as (Hi & Hk & Hbefore). simpl in Hk. subst k.
  destruct (lookup_identities _ _ _ _ _ Hid Hi) as ([k' user'] & Hi' & Hsame).
  injection Hsame as -> Hsid Hsemail Hshash Hsname.
  exists user'. split.
  - assert (list_find (λ kv : string * User, kv.1 = email) (users db')
            = Some (i, (email, user'))) as Hfind'.
    { apply list_find_Some. repeat split; [done|].
      intros j kv Hj Hlt Hkey.
      destruct (lookup_lt_is_Some_2 (users db) j) as [kv0 Hj0].
      { apply lookup_lt_Some in Hi. lia. }
      destruct (lookup_identities _ _ _ _ _ Hid Hj0) as (kv1 & Hj1 & Hsame1).
      rewrite Hj in Hj1. injection Hj1 as <-.
      apply (Hbefore j kv0 Hj0 Hlt). simpl.
      injection Hsame1 as <- _ _ _ _. done. }
    apply (login_user_found _ _ password) in Hfind'.
    apply (proj1 Hfind'). congruence.
  - unfold identity. simpl. congruence.
Qed.

(** X5. No operation locks an account out or hands it to someone else: if an
    email and password log in to an account, then after any sequence of
    operations they still log in, to the account with the same id, email,
    password hash and name. *)
Theorem login_user_persists db email password user ops :
  login_user db email password = (Some user, None) ->
  exists user',
    login_user (run db ops) email password = (Some user', None) /\
    u_id user' = u_id user /\ u_email user' = u_email user /\
    u_password_hash user' = u_password_hash user /\
    u_full_name user' = u_full_name user.
Proof.
  intros Hlogin. destruct (run_identities db ops) as [new Hnew].
  destruct (login_user_grow _ _ _ _ _ _ Hnew Hlogin) as (user' & Hlogin' & Hid).
  exists user'. split; [done|]. by injection Hid.
Qed.

Lemma login_user_persists_witness :
  exists user',
    login_user rounded_transfer "alice@example.com" "password123"
    = (Some user', None) /\ u_id user' = "1".
Proof.
  destruct (login_user_persists __init__ "alice@example.com" "password123" _
              [SendMoney "tx-1" "2025-01-01T12:00:00" "tx-2"
                 "2025-01-01T12:00:00" "2" "alice@example.com"
                 (a_float (Dec.mk 4 (-25))) None] eq_refl)
    as (user' & Hlogin & Hid & _).
  exists user'. split; [exact Hlogin | exact Hid].
Defined.

Lemma login_user_registered db uuid email password full_name :
  has_key email (users db) = false ->
  login_user (register_user db uuid email password full_name).1 email password
  = (Some {| u_id := uuid; u_email := email;
             u_password_hash := _hash_password password;
             u_full_name := full_name; u_balance := Decimal_0_00 |}, None).
Proof.
  intros Hkey. unfold register_user. rewrite Hkey. simpl.
  set (user := {| u_id := uuid |}).
  set (db1 := {| users := users db ++ [(email, user)] |}).
  assert (list_find (λ kv : string * User, kv.1 = email) (users db1)
          = Some (length (users db), (email, user))) as Hfind.
  { apply list_find_Some. simpl. repeat split.
    - by rewrite lookup_app_r, Nat.sub_diag.
    - intros j kv Hj Hlt Hk. rewrite lookup_app_l in Hj by done.
      assert (email ∈ (users db).*1) as Hin%has_key_elem; [|congruence].
      apply list_elem_of_fmap. exists kv. split; [done|].
      by eapply list_elem_of_lookup_2. }
  apply (login_user_found _ _ password) in Hfind as [Hok _]. by apply Hok.
Qed.

(** X6. Registering and logging in agree: the email and password with which
    [register_user] created an account log in to that account (its id, email
    and name are those registered), also after any sequence of operations. *)
Theorem register_then_login db uuid email password full_name ops :
  has_key email (users db) = false ->
  exists user,
    login_user (run (register_user db uuid email password full_name).1 ops)
      email password = (Some user, None) /\
    u_id user = uuid /\ u_email user = email /\ u_full_name user = full_name.
Proof.
  intros Hkey.
  pose proof (login_user_registered db uuid email password full_name Hkey)
    as Hlogin.
  destruct (run_identities (register_user db uuid email password full_name).1
              ops) as [new Hnew].
  destruct (login_user_grow _ _ _ _ _ _ Hnew Hlogin) as (user & Hlogin' & Hid).
  exists user. split; [done|]. by injection Hid.
Qed.

Lemma register_then_login_witness :
  exists user,
    login_user
      (run (register_user __init__ "3" "carol@example.com" "secret1" "Carol").1
         [AddMoney "tx-1" "2025-01-01T12:00:00" "3"
            (a_float (Dec.mk 500 (-1)))])
      "carol@example.com" "secret1" = (Some user, None) /\
    u_id user = "3" /\ u_email user = "carol@example.com" /\
    u_full_name user = "Carol".
Proof.
  apply (register_then_login __init__ "3" "carol@example.com" "secret1"
           "Carol"). reflexivity.
Defined.

(** ** Balances read back *)

Lemma get_balance_first_with db user_id k u :
  first_with (has_id user_id) (values db) k u ->
  get_balance db user_id = u_balance u.
Proof.
  intros Hfirst%first_with_first_with_id. unfold get_balance.
  by rewrite Hfirst.
Qed.


Lemma get_balance_cases db user_id :
  (forall u, u ∈ values db -> u_id u <> user_id) \/
  exists k u, first_with (has_id user_id) (values db) k u.
Proof.
  destruct (first_with_id user_id (values db) 0) as [[k u]|] eqn:Hfind.
  - right. apply first_with_id_Some in Hfind as (n & -> & Hn & Hid & Hbefore).
    exists n, u. done.
  - left. exact (proj1 (first_with_id_None _ _ _) Hfind).
Qed.

(** X7. With unique ids [get_balance] reads every account's balance: for an
    account of the store it returns that account's balance. *)
Theorem get_balance_of_account db user :
  NoDup (ids (users db)) -> user ∈ values db ->
  get_balance db (u_id user) = u_balance user.
Proof.
  intros Hnodup [m Hm]%list_elem_of_lookup_1.
  destruct (get_balance_cases db (u_id user)) as [Hnone|(k & u & Hfirst)].
  - destruct (Hnone user); [by eapply list_elem_of_lookup_2 | done].
  - rewrite (get_balance_first_with _ _ _ _ Hfirst).
    destruct Hfirst as (Hk & Hid & _).
    rewrite ids_values in Hnodup.
    assert (k = m) as ->; [|congruence].
    eapply (NoDup_lookup _ _ _ _ Hnodup);
      rewrite list_lookup_fmap; [rewrite Hk | rewrite Hm]; simpl;
      [by rewrite Hid | done].
Qed.

Lemma get_balance_of_account_witness :
  get_balance deposit_then_transfer "2" = Dec.mk 70000 (-2).
Proof.
  apply (get_balance_of_account deposit_then_transfer
           {| u_id := "2"; u_email := "bob@example.com";
              u_password_hash := _hash_password "password123";
              u_full_name := "Bob Johnson"; u_balance := Dec.mk 70000 (-2) |}).
  - vm_compute. repeat constructor; intros H;
      repeat (apply elem_of_cons in H as [?|H]; [done|]); inversion H.
  - vm_compute. right. left.
Defined.






(** ** What a transfer touches *)

Lemma users_lookup_values db i u :
  values db !! i = Some u -> exists k, users db !! i = Some (k, u).
Proof. by intros ?%values_lookup. Qed.

(** X9. A successful [send_money] changes two different accounts and nothing
    else in the store: the balance of the sender (the account with that id)
    becomes its balance minus the amount, which is also the balance
    returned, the balance of the recipient (the account with that email)
    becomes its balance plus the amount, and every other account, like every
    other field of these two, is as it was. *)
Theorem send_money_moves_amount db uuid_s now_s uuid_r now_r sender_id
    recipient_email amount description db' balance tx :
  send_money db uuid_s now_s uuid_r now_r sender_id recipient_email amount
    description = Returns db' (balance, tx, None) ->
  exists i j ks kr sender recipient sender_balance recipient_balance,
    i <> j /\
    users db !! i = Some (ks, sender) /\ u_id sender = sender_id /\
    users db !! j = Some (kr, recipient) /\
    u_email recipient = recipient_email /\
    Dec.sub (u_balance sender) (Decimal_str amount) = Some sender_balance /\
    Dec.add (u_balance recipient) (Decimal_str amount)
    = Some recipient_balance /\
    balance = Some sender_balance /\
    users db' !! i = Some (ks, with_balance sender_balance sender) /\
    users db' !! j = Some (kr, with_balance recipient_balance recipient) /\
    (forall k, k <> i -> k <> j -> users db' !! k = users db !! k) /\
    length (users db') = length (users db).
Proof.
  intros Hresult.
  destruct (send_money_cases db uuid_s now_s uuid_r now_r sender_id
              recipient_email amount description)
    as [ | | | | | | | |i s j r sb rb stored Hs Hr Hself Hij Hlt Hsub Hadd];
    try discriminate Hresult.
  injection Hresult as <- <- _.
  destruct Hs as (Hi & Hid & _), Hr as (Hj & Hemail & _).
  apply users_lookup_values in Hi as [ks Hi], Hj as [kr Hj].
  exists i, j, ks, kr, s, r, sb, rb. simpl.
  repeat split; try done.
  - rewrite lookup_write_balance_ne, lookup_write_balance, Hi by done. done.
  - rewrite lookup_write_balance, lookup_write_balance_ne, Hj by done. done.
  - intros k Hki Hkj. by rewrite !lookup_write_balance_ne.
  - by rewrite !length_write_balance.
Qed.

Lemma send_money_moves_amount_witness :
  exists db',
    db' = db_of (send_money __init__ "tx-1" "2025-01-01T12:00:00" "tx-2"
                   "2025-01-01T12:00:01" "1" "bob@example.com"
                   (a_float (Dec.mk 2000 (-1))) None) /\
    get_balance db' "1" = Dec.mk 80000 (-2) /\
    get_balance db' "2" = Dec.mk 70000 (-2) /\
    length (users db') = 2.
Proof.
  eexists. split; [reflexivity|].
  destruct (send_money_moves_amount __init__ "tx-1" "2025-01-01T12:00:00"
              "tx-2" "2025-01-01T12:00:01" "1" "bob@example.com"
              (a_float (Dec.mk 2000 (-1))) None _ _ _ eq_refl)
    as (i & j & ks & kr & s & r & sb & rb & _ & _ & _ & _ & _ & _ & _ & _ & _
        & _ & _ & Hlen).
  split; [reflexivity|]. split; [reflexivity|]. exact Hlen.
Defined.



(** ** The size of a history *)

Lemma length_sort_by_timestamp_reverse l :
  length (sort_by_timestamp_reverse l) = length l.
Proof. apply Permutation_length, sort_by_timestamp_reverse_perm. Qed.

(** X11. How many entries [get_transactions] returns: with [n] entries of the
    account in the log, a [limit] of zero or more gives the first
    [min limit n] entries of the history, so a smaller limit gives a prefix
    of what a larger one gives, and a negative [limit], which the slice
    [[:limit]] counts from the end, gives the history without its last
    [-limit] entries, the oldest ones. *)
Theorem get_transactions_length db user_id limit :
  let n := length (entries_of user_id (transactions db)) in
  length (get_transactions db user_id limit)
  = (if (0 <=? limit)%Z then Nat.min (Z.to_nat limit) n
     else n - Z.to_nat (- limit)) /\
  (forall limit',
     (0 <= limit <= limit')%Z ->
     get_transactions db user_id limit
     = take (Z.to_nat limit) (get_transactions db user_id limit')) /\
  ((limit < 0)%Z ->
   get_transactions db user_id limit
   = take (n - Z.to_nat (- limit))
       (get_transactions db user_id (Z.of_nat n))).
Proof.
  intros n. unfold get_transactions, slice_to, entries_of in *.
  set (history := sort_by_timestamp_reverse _).
  assert (length history = n) as Hlen
    by apply length_sort_by_timestamp_reverse.
  split; [|split].
  - destruct (0 <=? limit)%Z; rewrite length_take, Hlen; lia.
  - intros limit' [H0 Hle].
    rewrite (proj2 (Z.leb_le 0 limit)), (proj2 (Z.leb_le 0 limit')) by lia.
    rewrite take_take. f_equal. lia.
  - intros Hneg.
    rewrite (proj2 (Z.leb_gt 0 limit)), (proj2 (Z.leb_le 0 (Z.of_nat n)))
      by lia.
    rewrite Hlen, take_take. f_equal. lia.
Qed.

Lemma get_transactions_length_witness :
  get_transactions deposit_then_transfer "1" (-1)
  = take 1 (get_transactions deposit_then_transfer "1" 2).
Proof.
  exact (proj2 (proj2 (get_transactions_length deposit_then_transfer "1" (-1)))
           ltac:(lia)).
Defined.

(** ** The balance recorded in the last entry *)

Lemma entries_of_app user_id l l' :
  entries_of user_id (l ++ l') = entries_of user_id l ++ entries_of user_id l'.
Proof. apply List.filter_app. Qed.

Lemma entries_of_elem user_id l tx :
  tx ∈ entries_of user_id l -> tx ∈ l /\ tx_user_id tx = user_id.
Proof.
  intros [Hin Hid]%list_elem_of_In%filter_In.
  split; [by apply list_elem_of_In | by apply String.eqb_eq].
Qed.

Lemma step_checksum db op :
  log_owned db -> checksum db -> returned db op ->
  NoDup (ids (users (step db op))) -> checksum (step db op).
Proof.
  intros Hown Hsum Hret Hnodup.
  destruct op as [uuid email password full_name|uuid now user_id amount
                 |uuid_s now_s uuid_r now_r sender_id recipient_email amount d];
    simpl in Hret, Hnodup |- *.
  - unfold register_user in *.
    destruct (has_key email (users db)); simpl in *; [done|].
    intros k kv tx Hk Hlast. simpl in Hk, Hlast.
    apply lookup_app_Some in Hk as [Hk|[_ Hk]]; [by eapply Hsum|].
    apply list_lookup_singleton_Some in Hk as [_ <-]. simpl in *.
    apply last_Some_elem_of, entries_of_elem in Hlast as [Hin Hid].
    unfold ids in Hnodup. rewrite fmap_app in Hnodup. simpl in Hnodup.
    apply NoDup_app in Hnodup as (_ & Hfresh & _).
    destruct (Hfresh uuid); [|left].
    unfold log_owned in Hown. rewrite Forall_forall in Hown.
    rewrite <- Hid. by apply Hown.
  - revert Hret Hnodup.
    destruct (add_money_cases db uuid now user_id amount)
      as [| |i u Hfirst Hadd|i u balance Hfirst Hadd Hfloat
         |i u balance stored Hfirst Hadd Hfloat]; simpl; try done.
    intros _ Hnodup. rewrite ids_write_balance in Hnodup.
    destruct Hfirst as (Hi & Hid & _).
    apply values_lookup in Hi as [key Hi].
    intros k kv' tx Hk Hlast. simpl in Hk, Hlast.
    rewrite entries_of_app in Hlast. simpl in Hlast.
    apply lookup_write_balance_cases in Hk
      as [(-> & kv & Hkv & ->)|(Hne & Hk)]; simpl in *.
    + rewrite Hi in Hkv. injection Hkv as <-. simpl in Hlast.
      rewrite Hid, String.eqb_refl, last_snoc in Hlast.
      by injection Hlast as <-.
    + pose proof (distinct_ids _ _ _ _ _ Hnodup Hk Hi Hne) as Hdiff.
      simpl in Hdiff. rewrite Hid in Hdiff.
      assert (String.eqb user_id (u_id kv'.2) = false) as Heq
        by (apply String.eqb_neq; congruence).
      rewrite Heq, app_nil_r in Hlast. by eapply Hsum.
  - revert Hret Hnodup.
    destruct (send_money_cases db uuid_s now_s uuid_r now_r sender_id
                recipient_email amount d)
      as [| | | | | | | |i s j r sb rb stored Hs Hr Hself Hij Hlt Hsub Hadd];
      simpl; try done.
    intros _ Hnodup. rewrite !ids_write_balance in Hnodup.
    destruct Hs as (Hi & Hsid & _), Hr as (Hj & Hrem & _).
    apply values_lookup in Hi as [key_s Hi].
    apply values_lookup in Hj as [key_r Hj].
    pose proof (distinct_ids _ _ _ _ _ Hnodup Hi Hj Hij) as Hsr.
    simpl in Hsr, Hsid.
    intros k kv' tx Hk Hlast. simpl in Hk, Hlast.
    rewrite entries_of_app in Hlast. simpl in Hlast.
    apply lookup_write_balance_cases in Hk
      as [(-> & kv & Hkv & ->)|(Hnej & Hk)]; simpl in *.
    + rewrite lookup_write_balance_ne in Hkv by done.
      rewrite Hj in Hkv. injection Hkv as <-. simpl in Hlast.
      assert (String.eqb sender_id (u_id r) = false) as Heq
        by (apply String.eqb_neq; congruence).
      rewrite Heq, String.eqb_refl, last_snoc in Hlast.
      by injection Hlast as <-.
    + apply lookup_write_balance_cases in Hk
        as [(-> & kv & Hkv & ->)|(Hnei & Hk)]; simpl in *.
      * rewrite Hi in Hkv. injection Hkv as <-. simpl in Hlast.
        assert (String.eqb (u_id r) sender_id = false) as Heq
          by (apply String.eqb_neq; congruence).
        rewrite Hsid, String.eqb_refl, Heq, last_snoc in Hlast.
        by injection Hlast as <-.
      * pose proof (distinct_ids _ _ _ _ _ Hnodup Hk Hi Hnei) as Hdi.
        pose proof (distinct_ids _ _ _ _ _ Hnodup Hk Hj Hnej) as Hdj.
        simpl in Hdi, Hdj.
        assert (String.eqb sender_id (u_id kv'.2) = false) as Heq1
          by (apply String.eqb_neq; congruence).
        assert (String.eqb (u_id r) (u_id kv'.2) = false) as Heq2
          by (apply String.eqb_neq; congruence).
        rewrite Heq1, Heq2, app_nil_r in Hlast. by eapply Hsum.
Qed.

Lemma run_checksum ops db :
  log_owned db -> checksum db -> returned_run db ops ->
  NoDup (ids (users (run db ops))) -> checksum (run db ops).
Proof.
  revert db. induction ops as [|op ops IH];
    intros db Hown Hsum Hret Hnodup; [done|].
  destruct Hret as [Hop Hops]. rewrite run_cons in Hnodup |- *.
  apply IH; auto using step_log_owned.
  apply step_checksum; auto.
  destruct (run_ids (step db op) ops) as [new Hnew].
  rewrite Hnew in Hnodup. by apply NoDup_app in Hnodup as (? & _).
Qed.

(** X12. The [balance_after] of an entry is the balance its account had
    right after it: after any sequence of operations none of which raised,
    the last entry in the log of an account with a unique id records
    [float] of the account's current balance. *)
Theorem balance_after_is_current ops user tx :
  returned_run __init__ ops ->
  NoDup (ids (users (run __init__ ops))) ->
  user ∈ values (run __init__ ops) ->
  last (entries_of (u_id user) (transactions (run __init__ ops))) = Some tx ->
  tx_balance_after tx = PyFloat (u_balance user).
Proof.
  intros Hret Hnodup [k Hk]%list_elem_of_lookup_1 Hlast.
  apply values_lookup in Hk as [key Hk].
  assert (checksum __init__) as Hinit.
  { intros ? ? ? _ Hl. simpl in Hl. done. }
  exact (run_checksum ops __init__ log_owned_init Hinit Hret Hnodup
           _ _ _ Hk Hlast).
Qed.

Lemma balance_after_is_current_witness :
  exists tx,
    last (entries_of "2" (transactions deposit_then_transfer)) = Some tx /\
    tx_balance_after tx = PyFloat (Dec.mk 70000 (-2)).
Proof.
  eexists. split; [vm_compute; reflexivity|].
  apply (balance_after_is_current
           [AddMoney "tx-1" "2025-01-01T12:00:00" "1"
              (a_float (Dec.mk 500 (-1)));
            SendMoney "tx-2" "2025-01-01T12:01:00" "tx-3"
              "2025-01-01T12:01:00" "1" "bob@example.com"
              (a_float (Dec.mk 2000 (-1))) None]
           {| u_id := "2"; u_email := "bob@example.com";
              u_password_hash := _hash_password "password123";
              u_full_name := "Bob Johnson"; u_balance := Dec.mk 70000 (-2) |}).
  - vm_compute. repeat split.
  - vm_compute. repeat constructor; intros H;
      repeat (apply elem_of_cons in H as [?|H]; [done|]); inversion H.
  - vm_compute. right. left.
  - vm_compute. reflexivity.
Defined.

(** ** The application as a sequence of clicks *)

Lemma le_0_false amount :
  UI.le_0 amount = false -> (0 < Dec.coefficient amount)%Z.
Proof.
  intros Hle. destruct (Z.le_gt_cases (Dec.coefficient amount) 0) as [H|H];
    [|lia].
  apply DecFacts.leb_0 in H. unfold UI.le_0 in Hle. congruence.
Qed.

Lemma handle_register_cases db uuid name email password :
  handle_register db uuid name email password
  = (db, AuthError "Please fill in all fields") \/
  handle_register db uuid name email password
  = (db, AuthError "Password must be at least 6 characters") \/
  handle_register db uuid name email password
  = (db, AuthError "Email already registered") \/
  (name <> "" /\ email <> "" /\ password <> "" /\
   6 <= len password /\ has_key email (users db) = false /\
   handle_register db uuid name email password
   = ((register_user db uuid email password name).1,
      ShowWallet
        (Some {| u_id := uuid; u_email := email;
                 u_password_hash := _hash_password password;
                 u_full_name := name; u_balance := Decimal_0_00 |}))).
Proof.
  unfold handle_register, empty.
  destruct (String.eqb_spec name "") as [|Hname]; [by left|].
  destruct (String.eqb_spec email "") as [|Hemail]; [by left|].
  destruct (String.eqb_spec password "") as [|Hpassword]; [by left|].
  simpl. destruct (Nat.ltb_spec (len password) 6) as [|Hlen];
    [right; by left|].
  unfold register_user. destruct (has_key email (users db)) eqn:Hkey; simpl.
  - right. right. by left.
  - right. right. right. done.
Qed.

(** A click leaves the database as it was or does what an operation with a
    positive amount does. *)
Lemma click_cases db c :
  click db c = db \/ exists op, positive_amount op /\ click db c = step db op.
Proof.
  destruct c as [email password|uuid name email password
                |uuid now current_user_id amount
                |uuid_s now_s uuid_r now_r current_user_id recipient amount
                   description]; simpl.
  - by left.
  - destruct (handle_register_cases db uuid name email password)
      as [->|[->|[->|(_ & _ & _ & _ & _ & ->)]]]; try by left.
    right. by exists (RegisterUser uuid email password name).
  - unfold UI.add_money. destruct (UI.le_0 amount) eqn:Hle; [by left|].
    right. exists (AddMoney uuid now current_user_id (a_float amount)).
    split; [by apply le_0_false|]. simpl.
    by destruct (add_money db uuid now current_user_id (a_float amount))
      as [db' [[b t] [e|]]|db' exc].
  - unfold UI.send_money. destruct (empty recipient); [by left|].
    destruct (UI.le_0 amount) eqn:Hle; [by left|].
    right.
    exists (SendMoney uuid_s now_s uuid_r now_r current_user_id recipient
              (a_float amount)
              (Some (or_default (Some description) "Money transfer"))).
    split; [by apply le_0_false|]. simpl.
    by destruct (send_money db uuid_s now_s uuid_r now_r current_user_id
                   recipient (a_float amount) _)
      as [db' [[b t] [e|]]|db' exc].
Qed.

Lemma clicks_cons db c cs : clicks db (c :: cs) = clicks (click db c) cs.
Proof. done. Qed.

Lemma clicks_invariant (P : WalletDatabase -> Prop) db cs :
  (forall db op, positive_amount op -> P db -> P (step db op)) ->
  P db -> P (clicks db cs).
Proof.
  intros Hstep. revert db. induction cs as [|c cs IH]; intros db Hdb; [done|].
  rewrite clicks_cons. apply IH.
  destruct (click_cases db c) as [->|(op & Hop & ->)]; auto.
Qed.

Lemma step_amounts_positive db op :
  positive_amount op ->
  Forall (λ tx, (0 < Dec.coefficient (float_arg (tx_amount tx)))%Z)
    (transactions db) ->
  Forall (λ tx, (0 < Dec.coefficient (float_arg (tx_amount tx)))%Z)
    (transactions (step db op)).
Proof.
  intros Hop Hdb.
  destruct op as [uuid email password full_name|uuid now user_id amount
                 |uuid_s now_s uuid_r now_r sender_id recipient_email amount d];
    simpl in *.
  - unfold register_user. by destruct (has_key email (users db)).
  - destruct (add_money_cases db uuid now user_id amount)
      as [| | | |i u balance stored _ _ ->%to_float_Some]; simpl; try done.
    apply Forall_app. split; [done|]. by apply Forall_singleton.
  - destruct (send_money_cases db uuid_s now_s uuid_r now_r sender_id
                recipient_email amount d)
      as [| | | | | | | |i s j r sb rb stored _ _ _ _ _ _ _ ->%to_float_Some];
      simpl; try done.
    apply Forall_app. split; [done|]. by repeat apply Forall_cons_2.
Qed.

(** X13. Whatever is clicked and typed in the application (log in, create
    account, add money, send money, in any order and with any values), no
    balance of the store is below zero and every amount in the log is the
    float of a positive number: the handlers let no amount [<= 0] through
    to the database. *)
Theorem clicks_keep_ledger_sound cs :
  non_negative (clicks __init__ cs) /\
  Forall (λ tx, (0 < Dec.coefficient (float_arg (tx_amount tx)))%Z)
    (transactions (clicks __init__ cs)).
Proof.
  split.
  - apply clicks_invariant; [intros; by apply step_non_negative|].
    unfold non_negative. simpl. repeat constructor; simpl; lia.
  - apply clicks_invariant; [intros; by apply step_amounts_positive|].
    constructor.
Qed.

(** X14. The registration form creates an account only from a name, an email
    and a password that are not empty, a password of at least 6 characters
    (code points, as [len] counts them) and an email not yet registered; the
    account then has the id drawn, the values typed and the balance 0.00,
    and is the one the wallet screen opens for.  In every other case the
    database is as it was and an error is shown; an empty field is reported
    before a short password, a short password before a registered email. *)
Theorem handle_register_validates db uuid name email password :
  (name = "" \/ email = "" \/ password = "" ->
   handle_register db uuid name email password
   = (db, AuthError "Please fill in all fields")) /\
  (name <> "" -> email <> "" -> password <> "" ->
   len password < 6 ->
   handle_register db uuid name email password
   = (db, AuthError "Password must be at least 6 characters")) /\
  (forall db' user,
     handle_register db uuid name email password
     = (db', ShowWallet user) ->
     let account := {| u_id := uuid; u_email := email;
                       u_password_hash := _hash_password password;
                       u_full_name := name; u_balance := Decimal_0_00 |} in
     name <> "" /\ email <> "" /\ 6 <= len password /\
     has_key email (users db) = false /\
     user = Some account /\
     users db' = users db ++ [(email, account)] /\
     transactions db' = transactions db) /\
  (forall db' text,
     handle_register db uuid name email password = (db', AuthError text) ->
     db' = db).
Proof.
  split; [|split; [|split]].
  - unfold handle_register, empty.
    intros [-> | [-> | ->]]; simpl; [done| |];
      rewrite ?orb_true_r; done.
  - intros Hname Hemail Hpassword Hlen. unfold handle_register, empty.
    apply String.eqb_neq in Hname, Hemail, Hpassword.
    rewrite Hname, Hemail, Hpassword. simpl.
    by rewrite (proj2 (Nat.ltb_lt _ _) Hlen).
  - intros db' user Hresult.
    destruct (handle_register_cases db uuid name email password)
      as [H|[H|[H|(Hname & Hemail & _ & Hlen & Hkey & H)]]];
      rewrite H in Hresult; try discriminate Hresult.
    injection Hresult as <- <-. repeat split; try done.
    + unfold register_user. by rewrite Hkey.
    + unfold register_user. by rewrite Hkey.
  - intros db' text Hresult.
    destruct (handle_register_cases db uuid name email password)
      as [H|[H|[H|(_ & _ & _ & _ & _ & H)]]];
      rewrite H in Hresult; try discriminate Hresult;
      by injection Hresult as <-.
Qed.

(** A password of five letters with an accent: ten bytes in UTF-8, five
    characters for [len]. *)
Lemma handle_register_validates_witness :
  String.length "ééééé" = 10 /\
  handle_register __init__ "3" "Carol" "carol@example.com" "ééééé"
  = (__init__, AuthError "Password must be at least 6 characters").
Proof.
  split; [reflexivity|].
  apply (proj1 (proj2 (handle_register_validates __init__ "3" "Carol"
                         "carol@example.com" "ééééé"))); try done.
  vm_compute. lia.
Defined.

Lemma clicks_identities db cs :
  exists new,
    identity <$> users (clicks db cs) = (identity <$> users db) ++ new.
Proof.
  revert db. induction cs as [|c cs IH]; intros db.
  - exists []. by rewrite app_nil_r.
  - rewrite clicks_cons. destruct (IH (click db c)) as [new' ->].
    destruct (click_cases db c) as [->|(op & _ & ->)].
    + by exists new'.
    + destruct (step_identities db op) as [new ->].
      exists (new ++ new'). by rewrite app_assoc.
Qed.

(** X15. What the registration form accepts, the login form accepts: after
    [handle_register] has opened the wallet screen for a new account, and
    after any further clicks, [handle_login] with the same email and password
    opens the wallet screen for the account with the id, email and name
    registered. *)
Theorem handle_register_then_handle_login db uuid name email password db'
    user cs :
  handle_register db uuid name email password = (db', ShowWallet user) ->
  exists user',
    handle_login (clicks db' cs) email password = ShowWallet (Some user') /\
    u_id user' = uuid /\ u_email user' = email /\ u_full_name user' = name.
Proof.
  intros Hresult.
  destruct (handle_register_cases db uuid name email password)
    as [H|[H|[H|(Hname & Hemail & Hpassword & Hlen & Hkey & H)]]];
    rewrite H in Hresult; try discriminate Hresult.
  injection Hresult as <- _.
  pose proof (login_user_registered db uuid email password name Hkey)
    as Hlogin.
  destruct (clicks_identities (register_user db uuid email password name).1
              cs) as [new Hnew].
  destruct (login_user_grow _ _ _ _ _ _ Hnew Hlogin) as (user' & Hlogin' & Hid).
  exists user'. split; [|by injection Hid].
  unfold handle_login, empty.
  apply String.eqb_neq in Hemail, Hpassword.
  rewrite Hemail, Hpassword, Hlogin'. done.
Qed.

Lemma handle_register_then_handle_login_witness :
  exists user',
    handle_login
      (clicks
         (handle_register __init__ "3" "Carol" "carol@example.com"
            "secret1").1
         [ClickAddMoney "tx-1" "2025-01-01T12:00:00" "3" (Dec.mk 500 (-1))])
      "carol@example.com" "secret1" = ShowWallet (Some user') /\
    u_id user' = "3" /\ u_email user' = "carol@example.com" /\
    u_full_name user' = "Carol".
Proof.
  apply (handle_register_then_handle_login __init__ "3" "Carol"
           "carol@example.com" "secret1" _ _ _ eq_refl).
Defined.

(** ** [loops/1study1.py] *)

Lemma numberCounter_rejected rejected_lines stdin :
  Forall Study1.rejected rejected_lines ->
  Study1.numberCounter (rejected_lines ++ stdin)
  = let '(out, result, unread) := Study1.numberCounter stdin in
    (concat (Study1.complaint <$> rejected_lines) ++ out, result, unread).
Proof.
  induction 1 as [|l ls Hl _ IH]; simpl.
  - by destruct (Study1.numberCounter stdin) as [[out result] unread].
  - rewrite IH. destruct (Study1.numberCounter stdin) as [[out result] unread].
    destruct l as [n|]; simpl in *; [|done].
    by rewrite (proj2 (Z.ltb_ge 0 n) Hl).
Qed.

Lemma numberCounter_split stdin :
  Forall Study1.rejected stdin \/
  exists rejected_lines n rest,
    stdin = rejected_lines ++ Study1.Int n :: rest /\
    Forall Study1.rejected rejected_lines /\ (0 < n)%Z.
Proof.
  induction stdin as [|l stdin IH]; [by left|].
  destruct l as [n|].
  - destruct (Z.ltb_spec 0 n) as [Hpos|Hneg].
    + right. by exists [], n, stdin.
    + destruct IH as [Hall|(rej & m & rest & -> & Hrej & Hm)].
      * left. by constructor.
      * right. exists (Study1.Int n :: rej), m, rest.
        split; [done|]. split; [by constructor | done].
  - destruct IH as [Hall|(rej & m & rest & -> & Hrej & Hm)].
    + left. by constructor.
    + right. exists (Study1.ValueError :: rej), m, rest.
      split; [done|]. split; [by constructor | done].
Qed.

(** X16. [numberCounter] returns the first positive integer typed.  Every
    line before it, an integer [<= 0] or something that is no integer, is
    answered with its message and asked again; the lines after it are left
    unread.  Without a positive integer in the input the loop ends only with
    the [EOFError] of [input], after the last prompt.  So what it returns is
    always positive. *)
Theorem numberCounter_first_positive :
  (forall rejected_lines n rest,
     Forall Study1.rejected rejected_lines -> (0 < n)%Z ->
     Study1.numberCounter (rejected_lines ++ Study1.Int n :: rest)
     = (concat (Study1.complaint <$> rejected_lines) ++ [Study1.prompt],
        Some n, rest)) /\
  (forall stdin,
     Forall Study1.rejected stdin ->
     Study1.numberCounter stdin
     = (concat (Study1.complaint <$> stdin) ++ [Study1.prompt], None, [])) /\
  (forall stdin out n unread,
     Study1.numberCounter stdin = (out, Some n, unread) ->
     (0 < n)%Z /\
     exists rejected_lines,
       stdin = rejected_lines ++ Study1.Int n :: unread /\
       Forall Study1.rejected rejected_lines).
Proof.
  assert (forall rejected_lines n rest,
            Forall Study1.rejected rejected_lines -> (0 < n)%Z ->
            Study1.numberCounter (rejected_lines ++ Study1.Int n :: rest)
            = (concat (Study1.complaint <$> rejected_lines) ++ [Study1.prompt],
               Some n, rest)) as Hfirst.
  { intros rej n rest Hrej Hn. rewrite numberCounter_rejected by done.
    simpl. by rewrite (proj2 (Z.ltb_lt 0 n) Hn). }
  assert (forall stdin,
            Forall Study1.rejected stdin ->
            Study1.numberCounter stdin
            = (concat (Study1.complaint <$> stdin) ++ [Study1.prompt],
               None, [])) as Heof.
  { intros stdin Hrej.
    rewrite <- (app_nil_r stdin) at 1.
    by rewrite numberCounter_rejected. }
  split; [exact Hfirst|]. split; [exact Heof|].
  intros stdin out n unread Hresult.
  destruct (numberCounter_split stdin)
    as [Hall|(rej & m & rest & -> & Hrej & Hm)].
  - rewrite (Heof _ Hall) in Hresult. discriminate.
  - rewrite (Hfirst _ _ _ Hrej Hm) in Hresult.
    injection Hresult as _ <- <-. split; [done|]. by exists rej.
Qed.

Lemma numberCounter_first_positive_witness :
  Study1.numberCounter
    [Study1.ValueError; Study1.Int 0; Study1.Int (-3); Study1.Int 2;
     Study1.Int 7]
  = ([Study1.prompt; Study1.Print "Invalid input. Please enter a number.";
      Study1.prompt; Study1.Print "Please enter a positive number.";
      Study1.prompt; Study1.Print "Please enter a positive number.";
      Study1.prompt], Some 2%Z, [Study1.Int 7]).
Proof.
  apply (proj1 numberCounter_first_positive
           [Study1.ValueError; Study1.Int 0; Study1.Int (-3)] 2%Z
           [Study1.Int 7]).
  - repeat constructor; simpl; lia.
  - lia.
Defined.

(** X17. The program prints "Task finished..." exactly as many times as the
    first positive integer typed says, after the prompts and messages of
    [numberCounter], and ends normally; without a positive integer in the
    input it prints no such line and ends with [EOFError]. *)
Theorem main_repeats_task :
  (forall rejected_lines n rest,
     Forall Study1.rejected rejected_lines -> (0 < n)%Z ->
     Study1.main (rejected_lines ++ Study1.Int n :: rest)
     = (concat (Study1.complaint <$> rejected_lines) ++ [Study1.prompt]
          ++ replicate (Z.to_nat n) (Study1.Print "Task finished..."),
        true)) /\
  (forall stdin,
     Forall Study1.rejected stdin ->
     Study1.main stdin
     = (concat (Study1.complaint <$> stdin) ++ [Study1.prompt], false)) /\
  (forall stdin out,
     Study1.main stdin = (out, true) ->
     exists n,
       (0 < n)%Z /\
       length (List.filter
                 (λ w, match w with
                       | Study1.Print text => String.eqb text "Task finished..."
                       | Study1.Prompt _ => false
                       end) out) = Z.to_nat n).
Proof.
  assert (forall rej,
            List.filter
              (λ w, match w with
                    | Study1.Print text => String.eqb text "Task finished..."
                    | Study1.Prompt _ => false
                    end) (concat (Study1.complaint <$> rej)) = []) as Hnone.
  { induction rej as [|[n|] rej IH]; simpl; [done|exact IH|exact IH]. }
  split; [|split].
  - intros rej n rest Hrej Hn. unfold Study1.main.
    rewrite (numberCounter_rejected _ _ Hrej). simpl.
    rewrite (proj2 (Z.ltb_lt 0 n) Hn). by rewrite <- app_assoc.
  - intros stdin Hrej. unfold Study1.main.
    rewrite <- (app_nil_r stdin) at 1.
    by rewrite (numberCounter_rejected _ _ Hrej).
  - intros stdin out Hresult. unfold Study1.main in Hresult.
    destruct (numberCounter_split stdin)
      as [Hall|(rej & m & rest & -> & Hrej & Hm)].
    + rewrite <- (app_nil_r stdin) in Hresult at 1.
      rewrite (numberCounter_rejected _ _ Hall) in Hresult. discriminate.
    + rewrite (numberCounter_rejected _ _ Hrej) in Hresult. simpl in Hresult.
      rewrite (proj2 (Z.ltb_lt 0 m) Hm) in Hresult.
      injection Hresult as <-. exists m. split; [done|].
      rewrite !List.filter_app, Hnone. simpl. unfold Study1.doTask.
      generalize (Z.to_nat m) as k.
      induction k as [|k IH]; simpl; [done|]. by rewrite IH.
Qed.

Lemma main_repeats_task_witness :
  Study1.main [Study1.Int 0; Study1.Int 3]
  = ([Study1.prompt; Study1.Print "Please enter a positive number.";
      Study1.prompt; Study1.Print "Task finished...";
      Study1.Print "Task finished..."; Study1.Print "Task finished..."],
     true).
Proof.
  apply (proj1 main_repeats_task [Study1.Int 0] 3%Z []).
  - repeat constructor; simpl; lia.
  - lia.
Defined.

(** ** A new account *)

Lemma first_with_id_app_Some user_id l l' i r :
  first_with_id user_id l i = Some r ->
  first_with_id user_id (l ++ l') i = Some r.
Proof.
  revert i. induction l as [|v l IH]; intros i; simpl; [done|].
  destruct (String.eqb (u_id v) user_id); [done | apply IH].
Qed.

(** X18. An account just created under a fresh id is empty and disturbs no
    other: in any state the operations can reach, after [register_user] has
    created the account, [get_balance] of its id is 0.00, its history is
    empty, and [get_balance] of every other id is what it was. *)
Theorem new_account_is_empty ops uuid email password full_name :
  let db := run __init__ ops in
  let db' := (register_user db uuid email password full_name).1 in
  has_key email (users db) = false -> uuid ∉ ids (users db) ->
  get_balance db' uuid = Decimal_0_00 /\
  (forall limit, get_transactions db' uuid limit = []) /\
  (forall other, other <> uuid -> get_balance db' other = get_balance db other).
Proof.
  intros db db' Hkey Hfresh. subst db'. unfold register_user.
  rewrite Hkey. simpl.
  assert (log_owned db) as Hown.
  { apply run_invariant; [apply step_log_owned | apply log_owned_init]. }
  assert (first_with_id uuid (values db) 0 = None) as Hnone.
  { apply first_with_id_None. intros u Hu Hid. apply Hfresh.
    apply elem_of_ids. by exists u. }
  split; [|split].
  - unfold get_balance, values. simpl. rewrite fmap_app. fold (values db).
    rewrite first_with_id_app_None by done. simpl.
    by rewrite String.eqb_refl.
  - intros limit. unfold get_transactions. simpl.
    apply (get_transactions_no_account db uuid limit Hown Hfresh).
  - intros other Hother. unfold get_balance at 1. unfold values. simpl.
    rewrite fmap_app. fold (values db). unfold get_balance.
    destruct (first_with_id other (values db) 0) as [[k u]|] eqn:Hfind.
    + by rewrite (first_with_id_app_Some _ _ _ _ _ Hfind).
    + rewrite first_with_id_app_None by done. simpl.
      assert (String.eqb uuid other = false) as ->
        by (apply String.eqb_neq; congruence).
      done.
Qed.

Lemma new_account_is_empty_witness :
  get_balance
    (register_user deposit_then_transfer "3" "carol@example.com" "secret1"
       "Carol").1 "3" = Decimal_0_00 /\
  get_transactions
    (register_user deposit_then_transfer "3" "carol@example.com" "secret1"
       "Carol").1 "3" default_limit = [].
Proof.
  destruct (new_account_is_empty
              [AddMoney "tx-1" "2025-01-01T12:00:00" "1"
                 (a_float (Dec.mk 500 (-1)));
               SendMoney "tx-2" "2025-01-01T12:01:00" "tx-3"
                 "2025-01-01T12:01:00" "1" "bob@example.com"
                 (a_float (Dec.mk 2000 (-1))) None]
              "3" "carol@example.com" "secret1" "Carol") as (H0 & Hhist & _).
  - reflexivity.
  - intros H. vm_compute in H.
    repeat (apply elem_of_cons in H as [?|H]; [done|]). inversion H.
  - split; [exact H0 | exact (Hhist default_limit)].
Defined.
